(** * rtg: learning-rate schedules, the scheduled optimizer and the
      decoder-tuning / test-suite pipeline

    A shallow embedding of [rtg/module/schedule.py] and [rtg/pipeline.py].

    - Python [int] is [Z]; Python [float] is the kernel's binary64 [float].
    - A Python call that may raise returns [result]; code that mutates an
      object and may raise afterwards returns the mutated state next to
      the [result].
    - A [dict] is an association list in insertion order, as CPython keeps
      it; keys are compared with the language's [==].
    - What the repository calls outside these two files is a parameter:
      the C library's [pow] is a [Variable] of the sections on rates;
      [round], [random], [json], [str]/[eval], the decoder and the scorer
      are the fields of [Pipeline.Externals]. *)

From Stdlib Require Import ZArith List Bool String Lia Permutation.
From Stdlib Require Import DecimalString.
From Stdlib Require Import Ascii.
From Stdlib Require Import Floats.
From Stdlib Require Import Reals Rpower Lra.
Import ListNotations.

Local Open Scope Z_scope.

(* ================================================================= *)
(** ** Exceptions and fallible computations *)

Inductive exn : Type :=
  | AttributeError (obj attr : string)
  | AssertionError
  | ZeroDivisionError
  | OverflowError
  | IndexError
  | ValueError
  | TypeError
  | NotImplementedError
  | JSONDecodeError
  | ExternalError (what : string).

Inductive result (A : Type) : Type :=
  | Ok (a : A)
  | Raise (e : exn).
Arguments Ok {A} a.
Arguments Raise {A} e.

Definition bind {A B : Type} (m : result A) (k : A -> result B) : result B :=
  match m with
  | Ok a => k a
  | Raise e => Raise e
  end.

Declare Scope py_scope.
Delimit Scope py_scope with py.
Notation "x <- m ;; k" := (bind m (fun x => k))
  (at level 61, m at next level, right associativity) : py_scope.
Local Open Scope py_scope.

Definition is_ok {A : Type} (m : result A) : bool :=
  match m with Ok _ => true | Raise _ => false end.

(* ================================================================= *)
(** ** Python numbers *)

Module PyNum.

(** [float(z)]: the nearest binary64 value, ties to even;
    [OverflowError] when [z] is beyond the largest finite double. *)
Definition float_of_int (z : Z) : result float :=
  let f := SF2Prim (binary_normalize prec emax z 0 false) in
  if PrimFloat.is_infinity f then Raise OverflowError else Ok f.

(** [i * f] with [i] an [int] and [f] a [float]. *)
Definition int_mul_float (i : Z) (f : float) : result float :=
  x <- float_of_int i ;; Ok (x * f)%float.

(** [f / i] with [f] a [float] and [i] an [int]: [i] is converted first,
    and a zero divisor raises ([float(i)] is zero exactly when [i] is). *)
Definition float_div_int (f : float) (i : Z) : result float :=
  x <- float_of_int i ;;
  if i =? 0 then Raise ZeroDivisionError else Ok (f / x)%float.

(** The builtin [min(a, b)]: [b] replaces [a] only when [b < a]. *)
Definition min (a b : float) : float :=
  if (b <? a)%float then b else a.

Section Pow.
(** The C library's [pow] on doubles. *)
Variable libm_pow : float -> float -> float.

(** [b ** y] for an [int] base and one of the non-integral [float]
    exponents the schedules use ([-0.5], [-1.5], [0.5]).  A zero base
    with a negative exponent raises; a negative base yields a complex
    number, which every use in this file then compares or returns as
    a rate: the model stops there with [TypeError]. *)
Definition int_pow (b : Z) (y : float) : result float :=
  x <- float_of_int b ;;
  if b =? 0 then
    (if (y <? 0)%float then Raise ZeroDivisionError else Ok 0%float)
  else if b <? 0 then Raise TypeError
  else Ok (libm_pow x y).
End Pow.

End PyNum.

(* ================================================================= *)
(** ** rtg/module/schedule.py *)

Module Schedule.

(** [LRSchedule]: the one capability [rate(step)]. *)
Class LRSchedule (S : Type) : Type :=
  { rate : S -> Z -> result float }.

(** The base class itself: [rate] raises [NotImplementedError]. *)
Inductive BaseSchedule : Type := MkBaseSchedule.

#[export] Instance BaseSchedule_LRSchedule : LRSchedule BaseSchedule :=
  { rate := fun _ _ => Raise NotImplementedError }.

Record Noam : Type := MkNoam
  { warmup : Z; constant : Z; model_dim : Z }.

Record InverseSqrt : Type := MkInverseSqrt
  { is_warmup : Z; peak_lr : float }.

Section Rates.
Variable libm_pow : float -> float -> float.

(** [constant * model_dim ** -0.5 * min(step ** -0.5,
                                       step * warmup ** -1.5)] *)
Definition Noam_rate (n : Noam) (step : Z) : result float :=
  md <- PyNum.int_pow libm_pow (model_dim n) (-0.5)%float ;;
  c <- PyNum.int_mul_float (constant n) md ;;
  a <- PyNum.int_pow libm_pow step (-0.5)%float ;;
  w <- PyNum.int_pow libm_pow (warmup n) (-1.5)%float ;;
  b <- PyNum.int_mul_float step w ;;
  Ok (c * PyNum.min a b)%float.

(** [min(step * peak_lr / warmup,
         peak_lr * warmup ** 0.5 * step ** -0.5)] *)
Definition InverseSqrt_rate (s : InverseSqrt) (step : Z) : result float :=
  sp <- PyNum.int_mul_float step (peak_lr s) ;;
  a <- PyNum.float_div_int sp (is_warmup s) ;;
  w <- PyNum.int_pow libm_pow (is_warmup s) 0.5%float ;;
  d <- PyNum.int_pow libm_pow step (-0.5)%float ;;
  Ok (PyNum.min a (peak_lr s * w * d)%float).

Definition Noam_LRSchedule : LRSchedule Noam :=
  {| rate := Noam_rate |}.

Definition InverseSqrt_LRSchedule : LRSchedule InverseSqrt :=
  {| rate := InverseSqrt_rate |}.
End Rates.


(** [Noam(warmup=4000, constant=2, model_dim=model_dim)] *)
Definition vaswani_noam (dim : Z) : Noam :=
  {| warmup := 4000; constant := 2; model_dim := dim |}.

(** One entry of [optimizer.param_groups]: a dict whose ['lr'] key the
    coordinator writes; [group_id] stands for the rest of the dict. *)
Record param_group : Type := MkGroup
  { group_id : nat; lr : float }.

Definition set_lr (r : float) (p : param_group) : param_group :=
  {| group_id := group_id p; lr := r |}.

(** The wrapped [optim.Optimizer]: its parameter groups, and how many
    times its own [step] has been called. *)
Record Optimizer : Type := MkOptimizer
  { param_groups : list param_group; updates : nat }.

Definition Optimizer_step (o : Optimizer) : Optimizer :=
  {| param_groups := param_groups o; updates := S (updates o) |}.

(** [DistribTorch.instance()], the process-wide singleton. *)
Record DistribTorch : Type := MkDistrib
  { world_size : Z }.

Section Coordinator.
Context {S : Type} `{LRSchedule S}.

Record ScheduledOptimizer : Type := MkScheduled
  { start_step : Z;
    schedule : option S;
    optimizer : Optimizer;
    _step : Z;
    _rate : float }.

(** The dataclass constructor followed by [__post_init__]; the rate
    starts at the placeholder [-1]. *)
Definition post_init (start : Z) (sch : option S) (o : Optimizer)
  : ScheduledOptimizer :=
  {| start_step := start; schedule := sch; optimizer := o;
     _step := start; _rate := (-1)%float |}.

Definition curr_step (so : ScheduledOptimizer) : Z := _step so.
Definition curr_lr (so : ScheduledOptimizer) : float := _rate so.

Definition with_step (so : ScheduledOptimizer) (n : Z) :=
  {| start_step := start_step so; schedule := schedule so;
     optimizer := optimizer so; _step := n; _rate := _rate so |}.

Definition with_rate (so : ScheduledOptimizer) (r : float) :=
  {| start_step := start_step so; schedule := schedule so;
     optimizer := optimizer so; _step := _step so; _rate := r |}.

Definition with_optimizer (so : ScheduledOptimizer) (o : Optimizer) :=
  {| start_step := start_step so; schedule := schedule so;
     optimizer := o; _step := _step so; _rate := _rate so |}.

(** [rate /= dtorch.world_size], only when [world_size > 1]. *)
Definition scale_rate (dtorch : DistribTorch) (r : float) : result float :=
  if 1 <? world_size dtorch
  then PyNum.float_div_int r (world_size dtorch)
  else Ok r.

(** [for p in self.param_groups: p['lr'] = rate; self._rate = rate] *)
Definition apply_rate (so : ScheduledOptimizer) (r : float) :=
  let o := optimizer so in
  with_rate
    (with_optimizer so
       {| param_groups := map (set_lr r) (param_groups o);
          updates := updates o |})
    r.

(** The [else] branch: the first group's ['lr'], if there is a group. *)
Definition read_back_rate (so : ScheduledOptimizer) :=
  match param_groups (optimizer so) with
  | p :: _ => with_rate so (lr p)
  | [] => so
  end.

Definition delegate (so : ScheduledOptimizer) :=
  with_optimizer so (Optimizer_step (optimizer so)).

(** [ScheduledOptimizer.step]: the object after the call, and whether
    the call returned or raised. *)
Definition step (dtorch : DistribTorch) (so : ScheduledOptimizer)
  : ScheduledOptimizer * result unit :=
  let so1 := with_step so (_step so + 1) in
  match schedule so1 with
  | Some sch =>
      match rate sch (_step so1) with
      | Raise e => (so1, Raise e)
      | Ok r =>
          match scale_rate dtorch r with
          | Raise e => (so1, Raise e)
          | Ok r' => (delegate (apply_rate so1 r'), Ok tt)
          end
      end
  | None => (delegate (read_back_rate so1), Ok tt)
  end.

(** [ScheduledOptimizer.zero_grad]: delegates to the optimizer; nothing
    the model keeps changes. *)
Definition zero_grad (so : ScheduledOptimizer) : ScheduledOptimizer := so.

(** The calls that change or may change the object. *)
Inductive call : Type :=
  | CallStep
  | CallZeroGrad.

Definition is_step (c : call) : bool :=
  match c with CallStep => true | CallZeroGrad => false end.

(** A sequence of calls, whatever each one's outcome (a caller may catch
    an exception and go on). *)
Fixpoint calls (dtorch : DistribTorch) (cs : list call)
    (so : ScheduledOptimizer) : ScheduledOptimizer :=
  match cs with
  | [] => so
  | CallStep :: rest => calls dtorch rest (fst (step dtorch so))
  | CallZeroGrad :: rest => calls dtorch rest (zero_grad so)
  end.
End Coordinator.

Arguments ScheduledOptimizer S : clear implicits.

(** [ScheduledOptimizer.get_vaswani_etal_opt] *)
Definition get_vaswani_etal_opt (groups : list param_group) (dim : Z)
  : ScheduledOptimizer Noam :=
  post_init 0 (Some (vaswani_noam dim))
    {| param_groups := map (set_lr 0%float) groups; updates := O |}.

End Schedule.


(* ================================================================= *)
(** ** Python dictionaries *)

Module PyDict.

Section Dict.
Context {K V : Type}.
(** The language's [==] on keys. *)
Variable eqb : K -> K -> bool.

Definition dict : Type := list (K * V).

(** [k in d] *)
Definition contains (k : K) (d : dict) : bool :=
  existsb (fun kv => eqb (fst kv) k) d.

(** [d.get(k)] *)
Fixpoint get (k : K) (d : dict) : option V :=
  match d with
  | [] => None
  | (k', v') :: rest => if eqb k' k then Some v' else get k rest
  end.

(** [d[k] = v]: an existing key keeps its place (and its key object) and
    takes the new value; a new key goes to the end. *)
Fixpoint setitem (k : K) (v : V) (d : dict) : dict :=
  match d with
  | [] => [(k, v)]
  | (k', v') :: rest =>
      if eqb k' k then (k', v) :: rest else (k', v') :: setitem k v rest
  end.

(** [{f(k): g(v) for k, v in items}], built left to right. *)
Definition of_items (items : list (K * V)) : dict :=
  fold_left (fun d kv => setitem (fst kv) (snd kv) d) items [].

End Dict.

(** What [dir(dict)] lists besides the double-underscore names. *)
Definition attributes : list string :=
  ["clear"; "copy"; "fromkeys"; "get"; "items"; "keys"; "pop"; "popitem";
   "setdefault"; "update"; "values"]%string.

(** [getattr(d, name)] on a builtin [dict]. *)
Definition getattr (name : string) : result string :=
  if existsb (String.eqb name) attributes then Ok name
  else Raise (AttributeError "dict" name).

(** [for k, v in m()] where [m] is the bound method [getattr] found: only
    [items] yields the pairs. *)
Definition call_pairs {K V : Type} (method : string) (d : list (K * V))
  : result (list (K * V)) :=
  if String.eqb method "items" then Ok d else Raise TypeError.

End PyDict.

(* ================================================================= *)
(** ** Python's [sorted] *)

Module PySort.

Section Sorted.
Context {A : Type}.
(** [key(x) < key(y)] *)
Variable lt : A -> A -> bool.

(** One step of a stable ascending sort: [x], the later element, goes
    behind everything it is not smaller than. *)
Fixpoint insert (x : A) (l : list A) : list A :=
  match l with
  | [] => [x]
  | y :: rest => if lt x y then x :: y :: rest else y :: insert x rest
  end.

Definition sort_stable (l : list A) : list A :=
  fold_left (fun acc x => insert x acc) l [].

(** [sorted(l, key=..., reverse=True)]: CPython reverses, sorts stably
    ascending and reverses again. *)
Definition sorted_reverse (l : list A) : list A :=
  rev (sort_stable (rev l)).

End Sorted.

End PySort.

(* ================================================================= *)
(** ** rtg/pipeline.py: the decoder-parameter search *)

Module Pipeline.

(** A trial key [(beam_size, ensemble, lp_alpha)]. *)
Definition key : Type := (Z * Z * float)%type.

Definition beam_of (k : key) : Z := fst (fst k).
Definition ens_of (k : key) : Z := snd (fst k).
Definition alpha_of (k : key) : float := snd k.

(** Tuple [==]: element by element.  (A NaN is equal to nothing here;
    CPython's shortcut for the very same object is not modelled.) *)
Definition key_eqb (a b : key) : bool :=
  (beam_of a =? beam_of b) && (ens_of a =? ens_of b)
  && (alpha_of a =? alpha_of b)%float.

(** Tuple [<]: the first position where the two differ decides. *)
Definition key_ltb (a b : key) : bool :=
  if negb (beam_of a =? beam_of b) then beam_of a <? beam_of b
  else if negb (ens_of a =? ens_of b) then ens_of a <? ens_of b
  else (alpha_of a <? alpha_of b)%float.

(** [memory: Dict[Tuple, float]] *)
Definition memo : Type := list (key * float).

(** The object [Decoder.new(exp, ensemble=ens)] returns; the model keeps
    the ensemble size it was built for. *)
Record Decoder : Type := MkDecoder { dec_ensemble : Z }.

(** The files one call of [decode_eval_file] works on: the tuning pair,
    whose output file is named after the step and the trial, or a test
    case's staged source and reference. *)
Inductive job : Type :=
  | TuneJob
  | TestJob (name src ref : string).

(** What the pipeline calls outside this file. *)
Record Externals : Type := MkExternals
  { (** [round(x, 2)] *)
    round2 : float -> float;
    (** the value of the [n]-th draw of the generator, as [randint(a, b)]
        and as [uniform(a, b)] *)
    randint_at : nat -> Z -> Z -> Z;
    uniform_at : nat -> float -> float -> float;
    (** [Decoder.new]: [Some e] when building for that size raises [e] *)
    Decoder_new_error : Z -> option exn;
    (** [decode_eval_file(decoder, src, out, ref, batch_size, beam_size,
        lp_alpha, ...)] on the files of a job: the score, or what it
        raised *)
    decode_eval_file : Decoder -> job -> Z -> Z -> float -> result float;
    (** [str(e)] *)
    str_exn : exn -> string;
    (** [json.dumps] and [json.load] on the scores document *)
    json_dumps : list (string * float) -> string;
    json_load : string -> result (list (string * float));
    (** [str(k)] and [eval(s)] on keys *)
    str_key : key -> string;
    py_eval : string -> result key }.

(** What the search reads and writes on disk. *)
Record FS : Type := MkFS
  { tune_src_exists : bool;
    tune_ref_exists : bool;
    (** the text of [tune_dir / 'scores.json'], when the file exists *)
    scores_json : option string }.

Definition write_scores (fs : FS) (text : string) : FS :=
  {| tune_src_exists := tune_src_exists fs;
     tune_ref_exists := tune_ref_exists fs;
     scores_json := Some text |}.

Section Search.
Variable E : Externals.

(** Lines 102-107: resume from the scores file. *)
Definition load_memory (fs : FS) : result memo :=
  match scores_json fs with
  | None => Ok []
  | Some text =>
      data <- json_load E text ;;
      item <- PyDict.getattr "item" ;;
      pairs <- PyDict.call_pairs item data ;;
      fold_left
        (fun acc kv =>
           d <- acc ;;
           k <- py_eval E (fst kv) ;;
           Ok (PyDict.setitem key_eqb k (snd kv) d))
        pairs (Ok [])
  end.

(** Lines 142-144: [{str(k): v for k, v in memory.items()}], dumped. *)
Definition stringify (memory : memo) : list (string * float) :=
  PyDict.of_items String.eqb
    (map (fun kv => (str_key E (fst kv), snd kv)) memory).

Definition persist (fs : FS) (memory : memo) : FS :=
  write_scores fs (json_dumps E (stringify memory)).

(** Line 111 *)
Definition normalize (x : key) : key :=
  (beam_of x, ens_of x, round2 E (alpha_of x)).

(** Lines 110-112: the suggestions that are not in memory yet. *)
Definition suggested_new (memory : memo) (suggested : option (list key))
  : list key :=
  match suggested with
  | None => []
  | Some l =>
      filter (fun x => negb (PyDict.contains key_eqb x memory))
             (map normalize l)
  end.

(** [random.randint(a, b)]: the generator has made [rng] draws so far. *)
Definition randint (rng : nat) (a b : Z) : result (Z * nat) :=
  if b <? a then Raise ValueError else Ok (randint_at E rng a b, S rng).

Definition uniform (rng : nat) (a b : float) : float * nat :=
  (uniform_at E rng a b, S rng).

(** [[random.randint(a, b) for _ in range(n)]] *)
Fixpoint randints (n : nat) (rng : nat) (a b : Z) : result (list Z * nat) :=
  match n with
  | O => Ok ([], rng)
  | S m =>
      x <- randint rng a b ;;
      xs <- randints m (snd x) a b ;;
      Ok (fst x :: fst xs, snd xs)
  end.

(** [[round(random.uniform(a, b), 2) for _ in range(n)]] *)
Fixpoint uniforms (n : nat) (rng : nat) (a b : float) : list float * nat :=
  match n with
  | O => ([], rng)
  | S m =>
      let x := uniform rng a b in
      let xs := uniforms m (snd x) a b in
      (round2 E (fst x) :: fst xs, snd xs)
  end.

(** The three parallel lists of lines 109-121, and the generator after
    them. *)
Record plan : Type := MkPlan
  { beam_sizes : list Z;
    ensembles : list Z;
    lp_alphas : list float;
    rng_after : nat }.

(** Lines 109-121. *)
Definition plan_trials (memory : memo) (rng : nat) (trials : Z)
    (beam_size ensemble : Z * Z) (lp_alpha : float * float)
    (suggested : option (list key)) : result plan :=
  let new := suggested_new memory suggested in
  let new_trials := trials - Z.of_nat (List.length memory) in
  if 0 <? new_trials then
    let n := Z.to_nat new_trials in
    bs <- randints n rng (fst beam_size) (snd beam_size) ;;
    es <- randints n (snd bs) (fst ensemble) (snd ensemble) ;;
    let ls := uniforms n (snd es) (fst lp_alpha) (snd lp_alpha) in
    Ok {| beam_sizes := map beam_of new ++ fst bs;
          ensembles := map ens_of new ++ fst es;
          lp_alphas := map alpha_of new ++ fst ls;
          rng_after := snd ls |}
  else
    Ok {| beam_sizes := map beam_of new;
          ensembles := map ens_of new;
          lp_alphas := map alpha_of new;
          rng_after := rng |}.

(** [zip(beam_sizes, ensembles, lp_alphas)] *)
Fixpoint zip3 (bs es : list Z) (ls : list float) : list key :=
  match bs, es, ls with
  | b :: bs', e :: es', l :: ls' => (b, e, l) :: zip3 bs' es' ls'
  | _, _, _ => []
  end.

Definition planned (p : plan) : list key :=
  zip3 (beam_sizes p) (ensembles p) (lp_alphas p).

(** Lines 124-126: [grouped_ens[ens].append((b, l))] on a
    [defaultdict(list)]. *)
Definition groups : Type := list (Z * list (Z * float)).

Definition group_append (g : groups) (t : key) : groups :=
  let old :=
    match PyDict.get Z.eqb (ens_of t) g with
    | Some args => args
    | None => []
    end in
  PyDict.setitem Z.eqb (ens_of t) (old ++ [(beam_of t, alpha_of t)]) g.

Definition grouped_ens (ts : list key) : groups :=
  fold_left group_append ts [].

(** Line 147 *)
Definition suggest_batch_size (beam_size : Z) : result Z :=
  if beam_size =? 0 then Raise ZeroDivisionError
  else Ok (20000 / beam_size).

(** What the [try] block does, in order: a decoder built for an ensemble
    size, and a trial run on a decoder with what it returned or raised. *)
Inductive event : Type :=
  | EvNew (ens : Z)
  | EvTrial (d : Decoder) (b_s : Z) (lp_a : float) (r : result float).

(** Lines 131-137: the body of the inner loop up to the score. *)
Definition trial (d : Decoder) (b_s : Z) (lp_a : float) : result float :=
  batch_size <- suggest_batch_size b_s ;;
  decode_eval_file E d TuneJob batch_size b_s lp_a.

(** Lines 130-138: the inner loop, on the memory and the events so far. *)
Fixpoint eval_args (d : Decoder) (ens : Z) (args : list (Z * float))
    (st : memo * list event) : (memo * list event) * result unit :=
  match args with
  | [] => (st, Ok tt)
  | (b_s, lp_a) :: rest =>
      let r := trial d b_s lp_a in
      let tr := snd st ++ [EvTrial d b_s lp_a r] in
      match r with
      | Ok score =>
          eval_args d ens rest
            (PyDict.setitem key_eqb (b_s, ens, lp_a) score (fst st), tr)
      | Raise e => ((fst st, tr), Raise e)
      end
  end.

(** [Decoder.new(exp, ensemble=ens)] *)
Definition Decoder_new (ens : Z) : result Decoder :=
  match Decoder_new_error E ens with
  | Some e => Raise e
  | None => Ok {| dec_ensemble := ens |}
  end.

(** Lines 128-138: the outer loop. *)
Fixpoint run_groups (g : groups) (st : memo * list event)
  : (memo * list event) * result unit :=
  match g with
  | [] => (st, Ok tt)
  | (ens, args) :: rest =>
      match Decoder_new ens with
      | Raise e => (st, Raise e)
      | Ok decoder =>
          match eval_args decoder ens args (fst st, snd st ++ [EvNew ens]) with
          | (st', Ok _) => run_groups rest st'
          | (st', Raise e) => (st', Raise e)
          end
      end
  end.

(** Line 139: [sorted(memory.items(), key=lambda x: x[0], reverse=True)[0]] *)
Definition best_params (memory : memo) : result (key * float) :=
  match PySort.sorted_reverse (fun x y => key_ltb (fst x) (fst y)) memory with
  | [] => Raise IndexError
  | x :: _ => Ok x
  end.

(** A value of the returned dict: [best_params] is the pair (key, score),
    so [zip] pairs the first name with the whole key tuple and the second
    with the score. *)
Inductive pyval : Type :=
  | VKey (k : key)
  | VScore (s : float).

(** Line 140: [dict(zip(['beam_size', 'ensemble', 'lp_alpha'], best_params))] *)
Definition zip_names (bp : key * float) : list (string * pyval) :=
  combine ["beam_size"; "ensemble"; "lp_alpha"]%string
          [VKey (fst bp); VScore (snd bp)].

(** Lines 128-140: the [try] block. *)
Definition search (g : groups) (memory : memo)
  : (memo * list event) * result (list (string * pyval)) :=
  match run_groups g (memory, []) with
  | (st, Ok _) => (st, bp <- best_params (fst st) ;; Ok (zip_names bp))
  | (st, Raise e) => (st, Raise e)
  end.

(** What a call leaves behind: the files, the memory dict and the events
    at exit, and what the call returned (the first component of the pair
    it returns; the second echoes the arguments) or raised. *)
Record outcome : Type := MkOutcome
  { out_fs : FS;
    out_memory : memo;
    out_trace : list event;
    out_result : result (list (string * pyval)) }.

Definition raised (fs : FS) (memory : memo) (e : exn) : outcome :=
  {| out_fs := fs; out_memory := memory; out_trace := [];
     out_result := Raise e |}.

(** Lines 109-144 once [memory] is there: plan, group, search, and the
    [finally] that writes the scores file. *)
Definition tune_with_memory (fs : FS) (memory : memo) (rng : nat)
    (trials : Z) (beam_size ensemble : Z * Z) (lp_alpha : float * float)
    (suggested : option (list key)) : outcome :=
  match plan_trials memory rng trials beam_size ensemble lp_alpha suggested with
  | Raise e => raised fs memory e
  | Ok p =>
      let '(st, r) := search (grouped_ens (planned p)) memory in
      {| out_fs := persist fs (fst st); out_memory := fst st;
         out_trace := snd st; out_result := r |}
  end.

(** [Pipeline.tune_decoder_params].  Creating [tune_dir] and naming the
    output files (lines 93-96, 132-134) are left to the externals. *)
Definition tune_decoder_params (fs : FS) (rng : nat) (trials : Z)
    (strategy : string) (beam_size ensemble : Z * Z)
    (lp_alpha : float * float) (suggested : option (list key)) : outcome :=
  if negb (String.eqb strategy "random") then raised fs [] AssertionError
  else if negb (tune_src_exists fs) then raised fs [] AssertionError
  else if negb (tune_ref_exists fs) then raised fs [] AssertionError
  else
    match load_memory fs with
    | Raise e => raised fs [] e
    | Ok memory =>
        tune_with_memory fs memory rng trials beam_size ensemble lp_alpha
                         suggested
    end.

(* ----------------------------------------------------------------- *)
(** *** The test suite *)



(** The names an instance of [Pipeline] answers to. *)
Definition attributes : list string :=
  ["exp"; "script"; "pre_checks"; "detokenize"; "evaluate_file";
   "decode_eval_file"; "tune_decoder_params"; "suggest_batch_size";
   "run_tests"; "run"]%string.

(** [getattr(self, name)] *)
Definition getattr (name : string) : result string :=
  if existsb (String.eqb name) attributes then Ok name
  else Raise (AttributeError "Pipeline" name).






End Search.

(* ----------------------------------------------------------------- *)
(** *** Reading a trace *)


(** The trials run, in order: the key of each (with the ensemble size of
    the decoder it ran on) and its outcome. *)
Definition trials_of (tr : list event) : list (key * result float) :=
  flat_map
    (fun ev =>
       match ev with
       | EvTrial d b_s lp_a r => [((b_s, dec_ensemble d, lp_a), r)]
       | EvNew _ => []
       end) tr.

(** The trials that returned a score. *)
Definition completed (tr : list event) : list (key * float) :=
  flat_map
    (fun kr => match snd kr with Ok s => [(fst kr, s)] | Raise _ => [] end)
    (trials_of tr).


(** [memory[k] = score] for each pair of a list, in order. *)
Definition record_all (l : list (key * float)) (memory : memo) : memo :=
  fold_left (fun m kv => PyDict.setitem key_eqb (fst kv) (snd kv) m) l memory.


(** The memory with every score replaced through [g]. *)
Definition rescore (g : float -> float) (memory : memo) : memo :=
  map (fun kv => (fst kv, g (snd kv))) memory.

(** The trials of a grouping, group by group. *)
Definition flatten (g : groups) : list key :=
  flat_map (fun ga => map (fun a => (fst a, fst ga, snd a)) (snd ga)) g.

(** Distinct keys, and no empty group. *)
Definition well_grouped (g : groups) : Prop :=
  NoDup (map fst g) /\ Forall (fun ga => snd ga <> []) g.

(* ----------------------------------------------------------------- *)
(** *** The events of the loops, written out *)

Section Events.
Variable E : Externals.

(** The events the inner loop adds: one per pair, up to and including
    the first that raises. *)
Fixpoint args_events (d : Decoder) (args : list (Z * float)) : list event :=
  match args with
  | [] => []
  | (b_s, lp_a) :: rest =>
      EvTrial d b_s lp_a (trial E d b_s lp_a)
      :: (if is_ok (trial E d b_s lp_a) then args_events d rest else [])
  end.

Definition args_ok (d : Decoder) (args : list (Z * float)) : bool :=
  forallb (fun a => is_ok (trial E d (fst a) (snd a))) args.

(** The events the outer loop adds. *)
Fixpoint groups_events (g : groups) : list event :=
  match g with
  | [] => []
  | (ens, args) :: rest =>
      match Decoder_new E ens with
      | Raise _ => []
      | Ok d =>
          EvNew ens :: args_events d args
          ++ (if args_ok d args then groups_events rest else [])
      end
  end.

Fixpoint groups_ok (g : groups) : bool :=
  match g with
  | [] => true
  | (ens, args) :: rest =>
      match Decoder_new E ens with
      | Raise _ => false
      | Ok d => args_ok d args && groups_ok rest
      end
  end.


End Events.

End Pipeline.

(* ================================================================= *)
(** ** A small world to run the pipeline in *)

Module Fixture.
Import Pipeline.

Definition show (z : Z) : string := NilZero.string_of_int (Z.to_int z).

(** Scores by beam size: beam 1 scores 30, beam 3 fails to decode, every
    other beam scores 10.  A test case whose source is [missing.src]
    fails; the others score 25. *)
Definition scores (j : job) (beam_size : Z) : result float :=
  match j with
  | TuneJob =>
      if beam_size =? 1 then Ok 30%float
      else if beam_size =? 3 then Raise (ExternalError "decode failed")
      else Ok 10%float
  | TestJob _ src _ =>
      if String.eqb src "missing.src"
      then Raise (ExternalError "No such file: missing.src")
      else Ok 25%float
  end.

(** Rounding leaves the two-decimal values used here alone; every draw
    returns the upper bound; every decoder builds; a key prints as its two
    integers; the scores document lists its keys. *)
Definition world : Externals :=
  {| round2 := fun x => x;
     randint_at := fun _ _ b => b;
     uniform_at := fun _ _ b => b;
     Decoder_new_error := fun _ => None;
     decode_eval_file := fun _ j _ beam_size _ => scores j beam_size;
     str_exn :=
       fun e => match e with ExternalError s => s | _ => "error"%string end;
     json_dumps := fun d => String.concat ";" (map fst d);
     json_load := fun _ => Ok [("1,1"%string, 30%float)];
     str_key := fun k => (show (beam_of k) ++ "," ++ show (ens_of k))%string;
     py_eval := fun _ => Raise ValueError |}.

(** Source and reference are there; no scores file yet. *)
Definition fresh : FS :=
  {| tune_src_exists := true; tune_ref_exists := true; scores_json := None |}.

Definition key1 : key := (1, 1, 0%float).
Definition key2 : key := (2, 1, 0%float).



(** A stand-in for the C library's [pow] on the exponents in use. *)
Definition pow (x y : float) : float :=
  if (y =? -0.5)%float then (1 / PrimFloat.sqrt x)%float
  else if (y =? -1.5)%float then (1 / (x * PrimFloat.sqrt x))%float
  else PrimFloat.sqrt x.

(** The preset optimizer on two parameter groups, four workers. *)
Definition trainer : Schedule.ScheduledOptimizer Schedule.Noam :=
  Schedule.get_vaswani_etal_opt
    [Schedule.MkGroup 0 0%float; Schedule.MkGroup 1 0%float] 512.

Definition four_workers : Schedule.DistribTorch :=
  {| Schedule.world_size := 4 |}.

End Fixture.

(* ================================================================= *)
(** ** The inverse-square-root schedule in exact arithmetic *)

Module ScheduleExact.




End ScheduleExact.

(* ================================================================= *)
(** ** Paths *)

Module PyPath.

(** A [pathlib.Path]: the directory and the final component. *)
Record Path : Type := MkPath { parent : string; name : string }.

Definition path_eqb (p q : Path) : bool :=
  String.eqb (parent p) (parent q) && String.eqb (name p) (name q).

(** [s.rfind(c)], when [c] occurs. *)
Fixpoint rfind (c : Ascii.ascii) (s : string) : option nat :=
  match s with
  | EmptyString => None
  | String a rest =>
      match rfind c rest with
      | Some i => Some (S i)
      | None => if Ascii.eqb a c then Some O else None
      end
  end.

(** [Path.suffix]: the name from its last dot on, unless that dot is the
    first or the last character. *)
Definition suffix (p : Path) : string :=
  match rfind "."%char (name p) with
  | Some i =>
      if (0 <? i)%nat && (i <? String.length (name p) - 1)%nat
      then substring i (String.length (name p) - i) (name p)
      else ""%string
  | None => ""%string
  end.

(** [Path.with_name(new)]: a path without a name has none to replace.
    (The check of [new] itself is left out: the one caller appends to a
    name that is already a final component.) *)
Definition with_name (p : Path) (new : string) : result Path :=
  if String.eqb (name p) "" then Raise ValueError
  else Ok {| parent := parent p; name := new |}.

(** [Path.with_suffix(suf)]: [suf] is empty or starts with a dot and is
    not the dot alone; it replaces the suffix, or is appended when the
    name has none. *)
Definition with_suffix (p : Path) (suf : string) : result Path :=
  if negb (String.eqb suf "") && (negb (prefix "." suf) || String.eqb suf ".")
  then Raise ValueError
  else if String.eqb (name p) "" then Raise ValueError
  else
    let old := suffix p in
    Ok {| parent := parent p;
          name :=
            (substring 0 (String.length (name p) - String.length old) (name p)
             ++ suf)%string |}.

End PyPath.

(* ================================================================= *)
(** ** rtg/pipeline.py: decoding and scoring a file *)

Module Evaluate.
Import PyPath.

(** The files: the text of each path that exists. *)
Definition FS : Type := Path -> option string.

Definition write (fs : FS) (p : Path) (text : string) : FS :=
  fun q => if path_eqb q p then Some text else fs q.

(** Opening a file to read it. *)
Definition read (fs : FS) (p : Path) : result string :=
  match fs p with
  | Some text => Ok text
  | None => Raise (ExternalError "FileNotFoundError")
  end.

(** What [corpus_bleu] returns, as far as the code looks at it. *)
Record BLEU : Type := MkBLEU
  { score : float; sys_len : Z; ref_len : Z }.

(** What this part of the pipeline calls outside the file. *)
Record Tools : Type := MkTools
  { (** [line_count] of a file, from its text *)
    line_count : string -> Z;
    (** [decoder.decode_file(inp, out, **dec_args)] on the text of the
        source: what it wrote to [out], and what it raised, if it did *)
    decode_file :
      Pipeline.Decoder -> string -> Z -> Z -> float -> string * option exn;
    (** the text [detokenize] writes for the text of its input *)
    detok_text : string -> string;
    (** [corpus_bleu] on the detokenized hypothesis and the reference *)
    corpus_bleu : string -> string -> bool -> result BLEU;
    (** what [IO.write_lines] leaves in the score file for the line that
        lines 64-66 format *)
    bleu_line : BLEU -> string }.

(** The files, and the output files the decoder was run for, in order. *)
Record disk : Type := MkDisk
  { files : FS; decoded : list Path }.

Section Scoring.
Variable T : Tools.

(** Line 58 *)
Definition detok_path (hyp : Path) : result Path :=
  with_name hyp (name hyp ++ ".detok")%string.

(** Line 67 *)
Definition bleu_path (detok_hyp : Path) (lowercase : bool) : result Path :=
  with_suffix detok_hyp (if lowercase then ".lc.bleu" else ".oc.bleu").

(** [Pipeline.detokenize(inp, out)] with its defaults.  [IO.get_lines]
    and [IO.write_lines] are not part of this file; an input that is not
    there is taken to raise before [out] is opened.  The properties below
    are stated for an input that exists, or hold either way. *)
Definition detokenize (fs : FS) (inp out : Path) : FS * result unit :=
  match read fs inp with
  | Raise e => (fs, Raise e)
  | Ok text => (write fs out (detok_text T text), Ok tt)
  end.

(** Lines 64-66: the line divides [sys_len] by [ref_len]. *)
Definition bleu_str (bleu : BLEU) : result string :=
  if ref_len bleu =? 0 then Raise ZeroDivisionError
  else Ok (bleu_line T bleu).

(** [Pipeline.evaluate_file] *)
Definition evaluate_file (fs : FS) (hyp ref : Path) (lowercase : bool)
  : FS * result float :=
  match detok_path hyp with
  | Raise e => (fs, Raise e)
  | Ok detok_hyp =>
      match detokenize fs hyp detok_hyp with
      | (fs1, Raise e) => (fs1, Raise e)
      | (fs1, Ok _) =>
          let scored :=
            detok_lines <- read fs1 detok_hyp ;;
            ref_lines <- read fs1 ref ;;
            bleu <- corpus_bleu T detok_lines ref_lines lowercase ;;
            line <- bleu_str bleu ;;
            bleu_file <- bleu_path detok_hyp lowercase ;;
            Ok (bleu, line, bleu_file) in
          match scored with
          | Raise e => (fs1, Raise e)
          | Ok (bleu, line, bleu_file) =>
              (write fs1 bleu_file line, Ok (score bleu))
          end
      end
  end.

(** Lines 74-75: the output is there, not empty, and as long as the
    source. *)
Definition output_complete (fs : FS) (src_file out_file : Path)
  : result bool :=
  match fs out_file with
  | None => Ok false
  | Some out_text =>
      if String.eqb out_text "" then Ok false
      else
        src_text <- read fs src_file ;;
        Ok (line_count T out_text =? line_count T src_text)
  end.

(** [Pipeline.decode_eval_file] *)
Definition decode_eval_file (d : disk) (decoder : Pipeline.Decoder)
    (src_file out_file ref_file : Path) (lowercase : bool)
    (batch_size beam_size : Z) (lp_alpha : float) : disk * result float :=
  match output_complete (files d) src_file out_file with
  | Raise e => (d, Raise e)
  | Ok true =>
      let '(fs, r) := evaluate_file (files d) out_file ref_file lowercase in
      ({| files := fs; decoded := decoded d |}, r)
  | Ok false =>
      match read (files d) src_file with
      | Raise e => (d, Raise e)
      | Ok src_text =>
          let '(out_text, failure) :=
            decode_file T decoder src_text batch_size beam_size lp_alpha in
          let fs0 := write (files d) out_file out_text in
          match failure with
          | Some e =>
              ({| files := fs0; decoded := decoded d ++ [out_file] |},
               Raise e)
          | None =>
              let '(fs, r) := evaluate_file fs0 out_file ref_file lowercase in
              ({| files := fs; decoded := decoded d ++ [out_file] |}, r)
          end
      end
  end.

End Scoring.

(* ----------------------------------------------------------------- *)
(** *** The checks before a run *)

(** A key of the configuration: missing, bound to [None], or bound to a
    value. *)
Inductive entry (A : Type) : Type :=
  | Absent
  | IsNone
  | Present (a : A).
Arguments Absent {A}.
Arguments IsNone {A}.
Arguments Present {A} a.

(** [config.get(key) is not None] *)
Definition is_set {A : Type} (e : entry A) : bool :=
  match e with Present _ => true | _ => false end.

(** A test case after [Path(...).resolve()]: its name, source and
    reference. *)
Definition case : Type := (string * (Path * Path))%type.

Record config : Type := MkConfig
  { prep : entry unit;
    trainer : entry unit;
    (** ['tester'], and its ['suit'] *)
    tester : entry (entry (list case)) }.

Section Checks.
Variable T : Tools.

(** Lines 37-40 for one case. *)
Definition check_case (fs : FS) (c : case) : result unit :=
  match fs (fst (snd c)), fs (snd (snd c)) with
  | Some src_text, Some ref_text =>
      if line_count T src_text =? line_count T ref_text then Ok tt
      else Raise AssertionError
  | _, _ => Raise AssertionError
  end.

Fixpoint check_cases (fs : FS) (suit : list case) : result unit :=
  match suit with
  | [] => Ok tt
  | c :: rest => _ <- check_case fs c ;; check_cases fs rest
  end.

(** [Pipeline.pre_checks]: [script] and [fallback] are the two places of
    [detok-n-bleu.sh]; the result is what [self.script] becomes. *)
Definition pre_checks (fs : FS) (work_dir_exists : bool) (cfg : config)
    (script fallback : Path) : result Path :=
  if negb work_dir_exists then Raise AssertionError
  else if negb (is_set (prep cfg)) then Raise AssertionError
  else if negb (is_set (trainer cfg)) then Raise AssertionError
  else
    match tester cfg with
    | Absent | IsNone => Raise AssertionError
    | Present Absent => Raise (ExternalError "KeyError")
    | Present IsNone => Raise AssertionError
    | Present (Present suit) =>
        _ <- check_cases fs suit ;;
        let found :=
          match fs script with Some _ => script | None => fallback end in
        match fs found with
        | Some _ => Ok found
        | None => Raise AssertionError
        end
    end.

End Checks.

(** A case passes: both files are there, with as many lines. *)
Definition case_passes (T : Tools) (fs : FS) (c : case) : Prop :=
  exists src_text ref_text,
    fs (fst (snd c)) = Some src_text
    /\ fs (snd (snd c)) = Some ref_text
    /\ line_count T src_text = line_count T ref_text.

(* ----------------------------------------------------------------- *)
(** *** A small set of files *)

(** Lines are counted by their newlines; the decoder writes one line per
    source line; the scorer reports the reference's line count as its
    length. *)
Fixpoint newlines (s : string) : Z :=
  match s with
  | EmptyString => 0
  | String a rest =>
      (if Ascii.eqb a "010"%char then 1 else 0) + newlines rest
  end.

Fixpoint echo_lines (s : string) : string :=
  match s with
  | EmptyString => EmptyString
  | String a rest =>
      if Ascii.eqb a "010"%char
      then String "y"%char (String a (echo_lines rest))
      else echo_lines rest
  end.

Definition tools : Tools :=
  {| line_count := newlines;
     decode_file := fun _ src _ _ _ => (echo_lines src, None);
     detok_text := fun t => t;
     corpus_bleu :=
       fun hyp ref _ =>
         Ok {| score := 25%float; sys_len := newlines hyp;
               ref_len := newlines ref |};
     bleu_line := fun _ => "BLEU = 25.00"%string |}.

Definition src_file : Path := MkPath "data" "test.src".
Definition ref_file : Path := MkPath "data" "test.ref".
Definition empty_ref : Path := MkPath "data" "empty.ref".
Definition out_file : Path := MkPath "run" "test.out.tsv".
Definition script_file : Path := MkPath "scripts" "detok-n-bleu.sh".
Definition other_script : Path := MkPath "rtg/scripts" "detok-n-bleu.sh".

Definition two_lines : string :=
  String "a"%char
    (String "010"%char (String "b"%char (String "010"%char EmptyString))).

(** Source and reference of two lines each, an empty reference, the
    script in its second place; no output yet. *)
Definition start_files : FS :=
  write (write (write (write (fun _ => None) src_file two_lines)
                  ref_file two_lines) empty_ref "") other_script "#!/bin/sh".

Definition start : disk := {| files := start_files; decoded := [] |}.

Definition a_decoder : Pipeline.Decoder := {| Pipeline.dec_ensemble := 5 |}.

Definition good_config : config :=
  {| prep := Present tt; trainer := Present tt;
     tester := Present (Present [("test"%string, (src_file, ref_file))]) |}.

(** The two names [evaluate_file] derives from a hypothesis file:
    [hyp.with_name(hyp.name + '.detok')] and, from that,
    [.with_suffix('.lc.bleu' if lowercase else '.oc.bleu')] written out. *)
Definition detok_of (hyp : Path) : Path :=
  MkPath (parent hyp) (name hyp ++ ".detok").

Definition bleu_of (hyp : Path) (lowercase : bool) : Path :=
  MkPath (parent hyp)
         (name hyp ++ (if lowercase then ".lc.bleu" else ".oc.bleu")).

End Evaluate.

(* ================================================================= *)
(** ** Properties of the scheduled optimizer *)

Module ScheduleProps.
Import Schedule.

Section Coordinator.
Context {S : Type} `{LRSchedule S}.
Variable dtorch : DistribTorch.

Lemma step_counter (so : ScheduledOptimizer S) :
  _step (fst (step dtorch so)) = _step so + 1.
Proof.
  unfold step; cbn [schedule with_step _step].
  destruct (schedule so) as [sch|]; cbn.
  - destruct (rate sch (_step so + 1)) as [r|e]; cbn; [|reflexivity].
    destruct (scale_rate dtorch r) as [r'|e]; reflexivity.
  - unfold read_back_rate; cbn.
    destruct (param_groups (optimizer so)); reflexivity.
Qed.

Lemma calls_counter (cs : list call) :
  forall so : ScheduledOptimizer S,
    _step (calls dtorch cs so)
    = _step so + Z.of_nat (List.length (filter is_step cs)).
Proof.
  induction cs as [|c cs IH]; intros so.
  - cbn. lia.
  - destruct c; cbn [calls filter is_step].
    + rewrite IH, step_counter. cbn [List.length]. lia.
    + rewrite IH. unfold zero_grad. reflexivity.
Qed.

Lemma scale_rate_many (r w : float) :
  1 < world_size dtorch ->
  PyNum.float_of_int (world_size dtorch) = Ok w ->
  scale_rate dtorch r = Ok (r / w)%float.
Proof.
  intros Hws Hw. unfold scale_rate, PyNum.float_div_int.
  rewrite (proj2 (Z.ltb_lt _ _) Hws), Hw. cbn.
  destruct (Z.eqb_spec (world_size dtorch) 0) as [E|_]; [lia|reflexivity].
Qed.


Lemma apply_rate_groups (so : ScheduledOptimizer S) (r : float) :
  Forall (fun p => lr p = r) (param_groups (optimizer (apply_rate so r))).
Proof.
  unfold apply_rate; cbn.
  induction (param_groups (optimizer so)) as [|p ps IH]; cbn; constructor;
    [reflexivity|exact IH].
Qed.

End Coordinator.

(** C9.  The counter starts at the configured start value, every call of
    [step] adds exactly one to it (also a call that raises), and so after
    any sequence of calls it has grown by the number of [step] calls in
    the sequence. *)
Theorem step_counter_plus_one :
  forall (S : Type) (L : LRSchedule S) (dtorch : DistribTorch),
    (forall (start : Z) (sch : option S) (o : Optimizer),
        curr_step (post_init start sch o) = start)
    /\ (forall so : ScheduledOptimizer S,
          curr_step (fst (step dtorch so)) = curr_step so + 1)
    /\ (forall (cs : list call) (so : ScheduledOptimizer S),
          curr_step (calls dtorch cs so)
          = curr_step so + Z.of_nat (List.length (filter is_step cs))).
Proof.
  intros S L dtorch. unfold curr_step. split; [|split].
  - intros start sch o. reflexivity.
  - intros so. apply step_counter.
  - intros cs so. apply calls_counter.
Qed.

(** C4.  With a schedule attached and [world_size > 1], a call of [step]
    whose schedule returns [R] for the new counter returns normally, and
    the rate it stores and writes to every parameter group is [R] divided
    by [world_size] (as a double [w]). *)
Theorem step_rate_divided_by_world_size :
  forall (S : Type) (L : LRSchedule S) (dtorch : DistribTorch)
         (so : ScheduledOptimizer S) (sch : S) (R w : float),
    schedule so = Some sch ->
    rate sch (curr_step so + 1) = Ok R ->
    1 < world_size dtorch ->
    PyNum.float_of_int (world_size dtorch) = Ok w ->
    snd (step dtorch so) = Ok tt
    /\ curr_lr (fst (step dtorch so)) = (R / w)%float
    /\ Forall (fun p => lr p = (R / w)%float)
         (param_groups (optimizer (fst (step dtorch so))))
    /\ List.length (param_groups (optimizer (fst (step dtorch so))))
       = List.length (param_groups (optimizer so)).
Proof.
  intros S L dtorch so sch R w Hsch HR Hws Hw.
  unfold curr_step in HR. unfold step, curr_lr.
  cbn [schedule with_step _step]. rewrite Hsch, HR.
  rewrite (scale_rate_many dtorch R w Hws Hw). cbn [fst snd].
  repeat split.
  - unfold delegate, Optimizer_step; cbn.
    exact (apply_rate_groups (with_step so (_step so + 1)) (R / w)%float).
  - cbn. apply length_map.
Qed.

Lemma step_rate_divided_by_world_size_witness :
  exists R : float,
    @rate _ (Noam_LRSchedule Fixture.pow) (vaswani_noam 512) 1 = Ok R
    /\ 1 < world_size Fixture.four_workers
    /\ curr_lr
         (fst (@step _ (Noam_LRSchedule Fixture.pow) Fixture.four_workers
                 Fixture.trainer))
       = (R / 4)%float
    /\ Forall (fun p => lr p = (R / 4)%float)
         (param_groups
            (optimizer
               (fst (@step _ (Noam_LRSchedule Fixture.pow)
                       Fixture.four_workers Fixture.trainer)))).
Proof.
  eexists. split; [vm_compute; reflexivity|]. split; [reflexivity|].
  destruct (step_rate_divided_by_world_size Noam
              (Noam_LRSchedule Fixture.pow) Fixture.four_workers
              Fixture.trainer (vaswani_noam 512) _ 4%float
              eq_refl eq_refl eq_refl eq_refl) as (_ & Hlr & Hgroups & _).
  split; [exact Hlr|exact Hgroups].
Defined.

(* ----------------------------------------------------------------- *)
(** *** The Noam schedule in double precision *)

Section NoamFloat.
Variable libm_pow : float -> float -> float.

(** The rate sees a positive step only through its nearest double. *)
Lemma Noam_rate_rounded_step (n : Noam) (s1 s2 : Z) :
  0 < s1 -> 0 < s2 ->
  PyNum.float_of_int s1 = PyNum.float_of_int s2 ->
  Noam_rate libm_pow n s1 = Noam_rate libm_pow n s2.
Proof.
  intros H1 H2 Hf. unfold Noam_rate, PyNum.int_pow, PyNum.int_mul_float.
  rewrite Hf.
  destruct (Z.eqb_spec s1 0) as [E1|_]; [lia|].
  destruct (Z.eqb_spec s2 0) as [E2|_]; [lia|].
  destruct (Z.ltb_spec s1 0) as [L1|_]; [lia|].
  destruct (Z.ltb_spec s2 0) as [L2|_]; [lia|].
  reflexivity.
Qed.


End NoamFloat.

(** Steps [2^53] and [2^53 + 1] round to the same double. *)
Lemma Noam_rate_rounded_step_witness :
  (0 < 2 ^ 53 /\ 0 < 2 ^ 53 + 1
   /\ PyNum.float_of_int (2 ^ 53) = PyNum.float_of_int (2 ^ 53 + 1))
  /\ Noam_rate Fixture.pow (vaswani_noam 512) (2 ^ 53)
     = Noam_rate Fixture.pow (vaswani_noam 512) (2 ^ 53 + 1).
Proof.
  split; [repeat split; vm_compute; reflexivity|].
  apply (Noam_rate_rounded_step Fixture.pow (vaswani_noam 512)
           (2 ^ 53) (2 ^ 53 + 1));
    vm_compute; reflexivity.
Defined.



(* ----------------------------------------------------------------- *)
(** *** The Noam schedule in exact arithmetic *)

Module NoamExact.
Local Open Scope R_scope.







Section Shape.
Variable n : Noam.
Hypothesis warmup_pos : (0 < warmup n)%Z.
Hypothesis constant_pos : (0 < constant n)%Z.
Hypothesis model_dim_pos : (0 < model_dim n)%Z.




End Shape.
End NoamExact.



End ScheduleProps.

(* ================================================================= *)
(** ** Properties of the decoder-parameter search *)

Module PipelineProps.
Import Pipeline.


(* ----------------------------------------------------------------- *)
(** *** Grouping by ensemble size *)

Lemma key_eta (t : key) : (beam_of t, ens_of t, alpha_of t) = t.
Proof. destruct t as [[b e] l]. reflexivity. Qed.

Lemma group_append_cons (e : Z) (a : list (Z * float)) (rest : groups)
    (t : key) :
  group_append ((e, a) :: rest) t
  = if e =? ens_of t then (e, a ++ [(beam_of t, alpha_of t)]) :: rest
    else (e, a) :: group_append rest t.
Proof.
  unfold group_append. cbn. destruct (e =? ens_of t); reflexivity.
Qed.

Lemma group_append_keys (g : groups) (t : key) (x : Z) :
  In x (map fst (group_append g t)) <-> In x (map fst g) \/ x = ens_of t.
Proof.
  induction g as [|[e a] rest IH].
  - cbn. intuition.
  - rewrite group_append_cons.
    destruct (Z.eqb_spec e (ens_of t)) as [Heq|Hne]; cbn.
    + subst e. intuition.
    + rewrite IH. intuition.
Qed.

Lemma group_append_well (g : groups) (t : key) :
  well_grouped g -> well_grouped (group_append g t).
Proof.
  unfold well_grouped. induction g as [|[e a] rest IH]; intros [Hnd Hne].
  - cbn. split.
    + constructor; [intros []|constructor].
    + constructor; [discriminate|constructor].
  - rewrite group_append_cons. cbn in Hnd.
    inversion Hnd as [|? ? Hnotin Hnd']; subst.
    inversion Hne as [|? ? Ha Hne']; subst.
    destruct (Z.eqb_spec e (ens_of t)) as [Heq|Hneq]; cbn.
    + split; [constructor; assumption|].
      constructor; [|assumption]. cbn. intros Habs.
      apply app_eq_nil in Habs. destruct Habs as [_ Habs]. discriminate.
    + destruct (IH (conj Hnd' Hne')) as [IH1 IH2]. split.
      * constructor; [|exact IH1]. rewrite group_append_keys.
        intros [Hin|Hx]; [exact (Hnotin Hin)|exact (Hneq Hx)].
      * constructor; assumption.
Qed.

Lemma group_append_flatten (g : groups) (t : key) :
  Permutation (flatten (group_append g t)) (t :: flatten g).
Proof.
  induction g as [|[e a] rest IH].
  - cbn. rewrite key_eta. apply Permutation_refl.
  - rewrite group_append_cons.
    destruct (Z.eqb_spec e (ens_of t)) as [Heq|Hneq].
    + subst e. unfold flatten. cbn [flat_map fst snd].
      rewrite map_app. cbn [map fst snd]. rewrite key_eta, <- app_assoc.
      apply Permutation_sym, Permutation_middle.
    + unfold flatten in *. cbn [flat_map fst snd].
      eapply Permutation_trans.
      * apply Permutation_app_head. exact IH.
      * apply Permutation_sym, Permutation_middle.
Qed.

Lemma fold_group_append (ts : list key) :
  forall g : groups,
    well_grouped g ->
    well_grouped (fold_left group_append ts g)
    /\ Permutation (flatten (fold_left group_append ts g)) (flatten g ++ ts)
    /\ (forall x, In x (map fst (fold_left group_append ts g))
                  <-> In x (map fst g) \/ In x (map ens_of ts)).
Proof.
  induction ts as [|t ts IH]; intros g Hg; cbn [fold_left].
  - rewrite app_nil_r. cbn. intuition.
  - destruct (IH (group_append g t) (group_append_well g t Hg))
      as (Hw & Hp & Hk).
    split; [exact Hw|split].
    + eapply Permutation_trans; [exact Hp|].
      eapply Permutation_trans.
      * apply Permutation_app_tail. apply group_append_flatten.
      * cbn. apply Permutation_middle.
    + intros x. rewrite Hk, group_append_keys. cbn. intuition.
Qed.

Lemma grouped_ens_spec (ts : list key) :
  well_grouped (grouped_ens ts)
  /\ Permutation (flatten (grouped_ens ts)) ts
  /\ (forall x, In x (map fst (grouped_ens ts)) <-> In x (map ens_of ts)).
Proof.
  assert (Hnil : well_grouped []) by (split; constructor).
  destruct (fold_group_append ts [] Hnil) as (Hw & Hp & Hk).
  split; [exact Hw|split; [exact Hp|]].
  intros x. unfold grouped_ens. rewrite Hk. cbn. intuition.
Qed.

Section Trace.
Variable E : Externals.



Lemma trials_of_app (a b : list event) :
  trials_of (a ++ b) = trials_of a ++ trials_of b.
Proof. unfold trials_of. apply flat_map_app. Qed.

Lemma completed_app (a b : list event) :
  completed (a ++ b) = completed a ++ completed b.
Proof. unfold completed. rewrite trials_of_app. apply flat_map_app. Qed.

Lemma record_all_app (a b : list (key * float)) (m : memo) :
  record_all (a ++ b) m = record_all b (record_all a m).
Proof. unfold record_all. apply fold_left_app. Qed.

Lemma eval_args_spec (d : Decoder) (args : list (Z * float)) :
  forall st : memo * list event,
    snd (fst (eval_args E d (dec_ensemble d) args st))
      = snd st ++ args_events E d args
    /\ fst (fst (eval_args E d (dec_ensemble d) args st))
      = record_all (completed (args_events E d args)) (fst st)
    /\ is_ok (snd (eval_args E d (dec_ensemble d) args st)) = args_ok E d args.
Proof.
  induction args as [|[b_s lp_a] rest IH]; intros st; cbn [eval_args].
  - cbn. rewrite app_nil_r. auto.
  - cbn [args_events args_ok forallb fst snd].
    destruct (trial E d b_s lp_a) as [score|e] eqn:Ht; cbn [is_ok andb].
    + destruct (IH (PyDict.setitem key_eqb (b_s, dec_ensemble d, lp_a) score
                      (fst st),
                    snd st ++ [EvTrial d b_s lp_a (Ok score)]))
        as (Htr & Hm & Hok).
      cbn [fst snd] in Htr, Hm.
      rewrite Htr, Hm, Hok, <- app_assoc. cbn. auto.
    + cbn. auto.
Qed.

Lemma run_groups_spec (g : groups) :
  forall st : memo * list event,
    snd (fst (run_groups E g st)) = snd st ++ groups_events E g
    /\ fst (fst (run_groups E g st))
      = record_all (completed (groups_events E g)) (fst st)
    /\ is_ok (snd (run_groups E g st)) = groups_ok E g.
Proof.
  induction g as [|[ens args] rest IH]; intros st; cbn [run_groups].
  - cbn. rewrite app_nil_r. auto.
  - cbn [groups_events groups_ok]. unfold Decoder_new.
    destruct (Decoder_new_error E ens) as [e|]; [cbn; rewrite app_nil_r; auto|].
    pose proof (eval_args_spec {| dec_ensemble := ens |} args
                  (fst st, snd st ++ [EvNew ens])) as (Htr & Hm & Hok).
    cbn [dec_ensemble fst snd] in Htr, Hm, Hok.
    destruct (eval_args E {| dec_ensemble := ens |} ens args
                (fst st, snd st ++ [EvNew ens])) as [st' r] eqn:Hev.
    cbn [fst snd] in Htr, Hm, Hok.
    destruct r as [u|e]; cbn [is_ok] in Hok; rewrite <- Hok; cbn [andb].
    + destruct (IH st') as (Htr' & Hm' & Hok').
      rewrite Htr', Hm', Hok', Htr, Hm.
      rewrite <- !app_assoc. cbn [app].
      change (EvNew ens :: args_events E {| dec_ensemble := ens |} args
              ++ groups_events E rest)
        with ([EvNew ens] ++ args_events E {| dec_ensemble := ens |} args
              ++ groups_events E rest).
      rewrite !completed_app, !record_all_app. cbn. auto.
    + cbn [fst snd]. rewrite Htr, Hm, app_nil_r, <- app_assoc.
      change (EvNew ens :: args_events E {| dec_ensemble := ens |} args)
        with ([EvNew ens] ++ args_events E {| dec_ensemble := ens |} args).
      rewrite completed_app. cbn. auto.
Qed.
















Lemma search_state (g : groups) (memory : memo) :
  fst (search E g memory)
  = (record_all (completed (groups_events E g)) memory, groups_events E g).
Proof.
  unfold search.
  destruct (run_groups_spec g (memory, [])) as (Htr & Hm & _).
  destruct (run_groups E g (memory, [])) as [[m tr] [u|e]];
    cbn [fst snd] in *; subst; reflexivity.
Qed.





End Trace.





(* ----------------------------------------------------------------- *)
(** *** Selection *)

Section Rescore.
Context {A : Type}.
Variable lt : A -> A -> bool.
Variable f : A -> A.
Hypothesis lt_f : forall x y, lt (f x) (f y) = lt x y.

Lemma insert_map (x : A) (l : list A) :
  PySort.insert lt (f x) (map f l) = map f (PySort.insert lt x l).
Proof.
  induction l as [|y l IH]; [reflexivity|].
  cbn. rewrite lt_f. destruct (lt x y); cbn; [reflexivity|].
  rewrite IH. reflexivity.
Qed.

Lemma sort_stable_map (l : list A) :
  PySort.sort_stable lt (map f l) = map f (PySort.sort_stable lt l).
Proof.
  unfold PySort.sort_stable.
  change (@nil A) with (map f []) at 1. generalize (@nil A) as acc.
  induction l as [|x l IH]; intros acc; [reflexivity|].
  cbn [map fold_left]. rewrite insert_map. apply IH.
Qed.

Lemma sorted_reverse_map (l : list A) :
  PySort.sorted_reverse lt (map f l) = map f (PySort.sorted_reverse lt l).
Proof.
  unfold PySort.sorted_reverse.
  rewrite <- map_rev, sort_stable_map, map_rev. reflexivity.
Qed.

End Rescore.

(** C1.  The selection of line 139 looks at keys only: replacing the
    scores by any others leaves the selected key unchanged.  On two
    trials scoring 30 (beam 1) and 10 (beam 2) the call returns the
    second, the larger key, with its score 10. *)
Theorem selection_ignores_scores :
  (forall (g : float -> float) (memory : memo),
      best_params (rescore g memory)
      = bind (best_params memory) (fun kv => Ok (fst kv, g (snd kv))))
  /\ out_memory
       (tune_decoder_params Fixture.world Fixture.fresh 0 0 "random"
          (1, 15) (1, 10) (0%float, 1%float)
          (Some [Fixture.key1; Fixture.key2]))
     = [(Fixture.key1, 30%float); (Fixture.key2, 10%float)]
  /\ out_result
       (tune_decoder_params Fixture.world Fixture.fresh 0 0 "random"
          (1, 15) (1, 10) (0%float, 1%float)
          (Some [Fixture.key1; Fixture.key2]))
     = Ok [("beam_size"%string, VKey Fixture.key2);
           ("ensemble"%string, VScore 10%float)].
Proof.
  split; [|split; vm_compute; reflexivity].
  intros g memory. unfold best_params, rescore.
  rewrite (sorted_reverse_map
             (fun x y : key * float => key_ltb (fst x) (fst y))
             (fun kv => (fst kv, g (snd kv)))); [|reflexivity].
  destruct (PySort.sorted_reverse
              (fun x y : key * float => key_ltb (fst x) (fst y)) memory);
    reflexivity.
Qed.

(* ----------------------------------------------------------------- *)
(** *** Resuming *)

Lemma load_existing (E : Externals) (fs : FS) (text : string) :
  scores_json fs = Some text ->
  load_memory E fs
  = bind (json_load E text) (fun _ => Raise (AttributeError "dict" "item")).
Proof.
  intros Hfs. unfold load_memory. rewrite Hfs.
  destruct (json_load E text) as [data|e]; reflexivity.
Qed.

(** C2.  A scores file that exists is never loaded: reading back what
    [persist] wrote raises, with [AttributeError] on [data.item] as soon
    as the document parses, and the call of [tune_decoder_params] that
    finds the file raises before any trial. *)
Theorem persisted_scores_do_not_load :
  forall (E : Externals) (fs : FS) (memory : memo),
    (exists e, load_memory E (persist E fs memory) = Raise e)
    /\ (forall data,
           json_load E (json_dumps E (stringify E memory)) = Ok data ->
           load_memory E (persist E fs memory)
           = Raise (AttributeError "dict" "item"))
    /\ (forall (rng : nat) (trials : Z) (strategy : string) (bs es : Z * Z)
               (la : float * float) (suggested : option (list key)),
           is_ok
             (out_result
                (tune_decoder_params E (persist E fs memory) rng trials
                   strategy bs es la suggested)) = false
           /\ out_trace
                (tune_decoder_params E (persist E fs memory) rng trials
                   strategy bs es la suggested) = []).
Proof.
  intros E fs memory.
  assert (Hload : load_memory E (persist E fs memory)
                  = bind (json_load E (json_dumps E (stringify E memory)))
                         (fun _ => Raise (AttributeError "dict" "item")))
    by (apply load_existing; reflexivity).
  split; [|split].
  - rewrite Hload.
    destruct (json_load E (json_dumps E (stringify E memory))) as [d|e];
      eexists; reflexivity.
  - intros data Hdata. rewrite Hload, Hdata. reflexivity.
  - intros rng trials strategy bs es la suggested.
    unfold tune_decoder_params.
    destruct (String.eqb strategy "random"); cbn [negb];
      [|split; reflexivity].
    destruct (tune_src_exists (persist E fs memory)); cbn [negb];
      [|split; reflexivity].
    destruct (tune_ref_exists (persist E fs memory)); cbn [negb];
      [|split; reflexivity].
    rewrite Hload.
    destruct (json_load E (json_dumps E (stringify E memory))) as [d|e];
      split; reflexivity.
Qed.

(* ----------------------------------------------------------------- *)
(** *** The test suite *)



(* ----------------------------------------------------------------- *)
(** *** The theorems on concrete runs *)

Import Fixture.







End PipelineProps.

(* ================================================================= *)
(** ** More on the scheduled optimizer and the schedules *)

Module ScheduleMore.
Import Schedule.







Section ZeroCases.
Variable libm_pow : float -> float -> float.

(** For parameters and a step that are not negative and convert to
    doubles, [Noam.rate] raises [ZeroDivisionError] when the model width,
    the step or the warmup is zero, and returns the product otherwise. *)
Theorem Noam_rate_raises_on_zero :
  forall (n : Noam) (step : Z) (md c w s : float),
    0 <= model_dim n -> 0 <= warmup n -> 0 <= step ->
    PyNum.float_of_int (model_dim n) = Ok md ->
    PyNum.float_of_int (constant n) = Ok c ->
    PyNum.float_of_int (warmup n) = Ok w ->
    PyNum.float_of_int step = Ok s ->
    (model_dim n = 0 \/ step = 0 \/ warmup n = 0 ->
     Noam_rate libm_pow n step = Raise ZeroDivisionError)
    /\ (0 < model_dim n -> 0 < step -> 0 < warmup n ->
        Noam_rate libm_pow n step
        = Ok (c * libm_pow md (-0.5)
              * PyNum.min (libm_pow s (-0.5)) (s * libm_pow w (-1.5)))%float).
Proof.
  intros n step md c w s Hmd Hw Hs Fmd Fc Fw Fs.
  unfold Noam_rate, PyNum.int_pow, PyNum.int_mul_float.
  rewrite Fmd, Fc, Fw, Fs. cbn [bind].
  change ((-0.5 <? 0)%float) with true.
  change ((-1.5 <? 0)%float) with true.
  destruct (Z.eqb_spec (model_dim n) 0) as [Emd|Nmd].
  { split; [reflexivity|lia]. }
  destruct (Z.ltb_spec (model_dim n) 0) as [Lmd|_]; [lia|]. cbn [bind].
  destruct (Z.eqb_spec step 0) as [Es|Ns].
  { split; [reflexivity|lia]. }
  destruct (Z.ltb_spec step 0) as [Ls|_]; [lia|]. cbn [bind].
  destruct (Z.eqb_spec (warmup n) 0) as [Ew|Nw].
  { split; [reflexivity|lia]. }
  destruct (Z.ltb_spec (warmup n) 0) as [Lw|_]; [lia|]. cbn [bind].
  split; [intros [H|[H|H]]; contradiction|reflexivity].
Qed.

(** For a step and a warmup that are not negative and convert to doubles,
    [InverseSqrt.rate] raises [ZeroDivisionError] when the warmup or the
    step is zero, and returns the smaller branch otherwise. *)
Theorem InverseSqrt_rate_raises_on_zero :
  forall (i : InverseSqrt) (step : Z) (w s : float),
    0 <= is_warmup i -> 0 <= step ->
    PyNum.float_of_int (is_warmup i) = Ok w ->
    PyNum.float_of_int step = Ok s ->
    (step = 0 \/ is_warmup i = 0 ->
     InverseSqrt_rate libm_pow i step = Raise ZeroDivisionError)
    /\ (0 < step -> 0 < is_warmup i ->
        InverseSqrt_rate libm_pow i step
        = Ok (PyNum.min (s * peak_lr i / w)
                (peak_lr i * libm_pow w 0.5 * libm_pow s (-0.5)))%float).
Proof.
  intros i step w s Hw Hs Fw Fs.
  unfold InverseSqrt_rate, PyNum.int_pow, PyNum.int_mul_float,
    PyNum.float_div_int.
  rewrite Fw, Fs. cbn [bind].
  change ((-0.5 <? 0)%float) with true.
  destruct (Z.eqb_spec (is_warmup i) 0) as [Ew|Nw].
  { split; [reflexivity|lia]. }
  destruct (Z.ltb_spec (is_warmup i) 0) as [Lw|_]; [lia|]. cbn [bind].
  destruct (Z.eqb_spec step 0) as [Es|Ns].
  { split; [reflexivity|lia]. }
  destruct (Z.ltb_spec step 0) as [Ls|_]; [lia|]. cbn [bind].
  split; [intros [H|H]; contradiction|reflexivity].
Qed.

End ZeroCases.

Lemma Noam_rate_raises_on_zero_witness :
  Noam_rate Fixture.pow (vaswani_noam 512) 0 = Raise ZeroDivisionError
  /\ Noam_rate Fixture.pow (MkNoam 0 2 512) 7 = Raise ZeroDivisionError.
Proof.
  split.
  - apply (proj1 (Noam_rate_raises_on_zero Fixture.pow (vaswani_noam 512) 0
                    512%float 2%float 4000%float 0%float
                    ltac:(cbn; lia) ltac:(cbn; lia) ltac:(lia)
                    eq_refl eq_refl eq_refl eq_refl)).
    right. left. reflexivity.
  - apply (proj1 (Noam_rate_raises_on_zero Fixture.pow (MkNoam 0 2 512) 7
                    512%float 2%float 0%float 7%float
                    ltac:(cbn; lia) ltac:(cbn; lia) ltac:(lia)
                    eq_refl eq_refl eq_refl eq_refl)).
    right. right. reflexivity.
Defined.

Lemma InverseSqrt_rate_raises_on_zero_witness :
  InverseSqrt_rate Fixture.pow (MkInverseSqrt 0 0.5%float) 3
  = Raise ZeroDivisionError
  /\ InverseSqrt_rate Fixture.pow (MkInverseSqrt 4000 0.5%float) 0
     = Raise ZeroDivisionError.
Proof.
  split.
  - apply (proj1 (InverseSqrt_rate_raises_on_zero Fixture.pow
                    (MkInverseSqrt 0 0.5%float) 3 0%float 3%float
                    ltac:(cbn; lia) ltac:(lia) eq_refl eq_refl)).
    right. reflexivity.
  - apply (proj1 (InverseSqrt_rate_raises_on_zero Fixture.pow
                    (MkInverseSqrt 4000 0.5%float) 0 4000%float 0%float
                    ltac:(cbn; lia) ltac:(lia) eq_refl eq_refl)).
    left. reflexivity.
Defined.




End ScheduleMore.

(* ================================================================= *)
(** ** More on the decoder-parameter search *)

Module PipelineMore.
Import Pipeline.

(* ----------------------------------------------------------------- *)
(** *** Batch sizes *)

(** [suggest_batch_size] raises on a zero beam; for a positive beam it
    returns the largest batch size whose product with the beam stays
    within 20000, which is zero as soon as the beam exceeds 20000.  A
    trial of beam zero raises before the decoder is called. *)
Theorem suggest_batch_size_bounds :
  suggest_batch_size 0 = Raise ZeroDivisionError
  /\ (forall b : Z,
         0 < b ->
         exists n : Z,
           suggest_batch_size b = Ok n
           /\ 0 <= n
           /\ n * b <= 20000 < (n + 1) * b
           /\ (n = 0 <-> 20000 < b))
  /\ (forall (E : Externals) (d : Decoder) (lp_a : float),
         trial E d 0 lp_a = Raise ZeroDivisionError).
Proof.
  split; [reflexivity|]. split; [|reflexivity].
  intros b Hb. exists (20000 / b). unfold suggest_batch_size.
  destruct (Z.eqb_spec b 0) as [E0|_]; [lia|].
  pose proof (Z.div_mod 20000 b ltac:(lia)) as Hdm.
  pose proof (Z.mod_pos_bound 20000 b Hb) as Hmod.
  assert (Hn : 0 <= 20000 / b) by (apply Z.div_pos; lia).
  repeat split; try nia.
Qed.

(* ----------------------------------------------------------------- *)
(** *** Groups *)

Lemma get_setitem (k k' : Z) (v : list (Z * float)) (d : groups) :
  PyDict.get Z.eqb k (PyDict.setitem Z.eqb k' v d)
  = if k' =? k then Some v else PyDict.get Z.eqb k d.
Proof.
  induction d as [|[k0 v0] rest IH]; cbn.
  - destruct (k' =? k); reflexivity.
  - destruct (Z.eqb_spec k0 k') as [E0|N0]; cbn.
    + subst k0. destruct (Z.eqb_spec k' k); reflexivity.
    + rewrite IH. destruct (Z.eqb_spec k0 k) as [E1|N1];
        destruct (Z.eqb_spec k' k) as [E2|N2]; try reflexivity.
      subst. contradiction.
Qed.

Lemma get_group_append (g : groups) (t : key) (ens : Z) :
  PyDict.get Z.eqb ens (group_append g t)
  = if ens_of t =? ens
    then Some (match PyDict.get Z.eqb ens g with
               | Some args => args
               | None => []
               end ++ [(beam_of t, alpha_of t)])
    else PyDict.get Z.eqb ens g.
Proof.
  unfold group_append. rewrite get_setitem.
  destruct (Z.eqb_spec (ens_of t) ens) as [E|N]; [subst ens|]; reflexivity.
Qed.

Lemma get_fold_group_append (ts : list key) (ens : Z) :
  forall g : groups,
    PyDict.get Z.eqb ens (fold_left group_append ts g)
    = match PyDict.get Z.eqb ens g,
            filter (fun t => ens_of t =? ens) ts with
      | None, [] => None
      | None, l => Some (map (fun t => (beam_of t, alpha_of t)) l)
      | Some args, l => Some (args ++ map (fun t => (beam_of t, alpha_of t)) l)
      end.
Proof.
  induction ts as [|t ts IH]; intros g; cbn [fold_left filter].
  - destruct (PyDict.get Z.eqb ens g); [rewrite app_nil_r|]; reflexivity.
  - rewrite IH, get_group_append.
    destruct (ens_of t =? ens); [|reflexivity].
    destruct (PyDict.get Z.eqb ens g) as [args|]; cbn [map].
    + destruct (filter (fun t0 => ens_of t0 =? ens) ts);
        rewrite <- app_assoc; reflexivity.
    + destruct (filter (fun t0 => ens_of t0 =? ens) ts); reflexivity.
Qed.

Lemma keys_group_append (g : groups) (t : key) :
  map fst (group_append g t)
  = map fst g
    ++ (if existsb (Z.eqb (ens_of t)) (map fst g) then [] else [ens_of t]).
Proof.
  induction g as [|[e a] rest IH].
  - reflexivity.
  - rewrite PipelineProps.group_append_cons. cbn [map fst existsb].
    rewrite (Z.eqb_sym (ens_of t) e).
    destruct (e =? ens_of t); cbn.
    + rewrite app_nil_r. reflexivity.
    + rewrite IH. reflexivity.
Qed.

Lemma existsb_same_elements (x : Z) (l l' : list Z) :
  (forall y, In y l <-> In y l') ->
  existsb (Z.eqb x) l = existsb (Z.eqb x) l'.
Proof.
  intros Hsame.
  destruct (existsb (Z.eqb x) l) eqn:Hl; symmetry.
  - apply existsb_exists in Hl. destruct Hl as (y & Hin & Heq).
    apply existsb_exists. exists y. split; [apply Hsame; exact Hin|exact Heq].
  - destruct (existsb (Z.eqb x) l') eqn:Hl'; [|reflexivity].
    apply existsb_exists in Hl'. destruct Hl' as (y & Hin & Heq).
    assert (Habs : existsb (Z.eqb x) l = true)
      by (apply existsb_exists; exists y; split;
          [apply Hsame; exact Hin|exact Heq]).
    congruence.
Qed.

(** The group of an ensemble size holds exactly the trials of that size,
    in the order of the plan, and there is no group for a size no trial
    has.  Groups stand in the order in which their sizes first appear: a
    further trial joins its group, or opens a new last group when its
    size is new, and moves nothing else. *)
Theorem groups_hold_their_trials_in_order :
  (forall (ts : list key) (ens : Z),
      PyDict.get Z.eqb ens (grouped_ens ts)
      = match filter (fun t => ens_of t =? ens) ts with
        | [] => None
        | l => Some (map (fun t => (beam_of t, alpha_of t)) l)
        end)
  /\ (forall (ts : list key) (t : key),
         map fst (grouped_ens (ts ++ [t]))
         = map fst (grouped_ens ts)
           ++ (if existsb (Z.eqb (ens_of t)) (map ens_of ts)
               then [] else [ens_of t])).
Proof.
  split.
  - intros ts ens. unfold grouped_ens.
    rewrite get_fold_group_append. cbn [PyDict.get].
    destruct (filter (fun t => ens_of t =? ens) ts); reflexivity.
  - intros ts t. unfold grouped_ens. rewrite fold_left_app. cbn [fold_left].
    rewrite keys_group_append. f_equal.
    destruct (PipelineProps.grouped_ens_spec ts) as (_ & _ & Hkeys).
    unfold grouped_ens in Hkeys.
    rewrite (existsb_same_elements (ens_of t) _ _ Hkeys). reflexivity.
Qed.

(* ----------------------------------------------------------------- *)
(** *** The memory *)

Lemma keys_setitem (k : key) (v : float) (m : memo) :
  map fst (PyDict.setitem key_eqb k v m)
  = map fst m ++ (if PyDict.contains key_eqb k m then [] else [k]).
Proof.
  induction m as [|[k0 v0] rest IH]; [reflexivity|].
  cbn. destruct (key_eqb k0 k); cbn.
  - rewrite app_nil_r. reflexivity.
  - rewrite IH. reflexivity.
Qed.

Lemma keys_record_all (l : list (key * float)) :
  forall m : memo,
    exists added,
      map fst (record_all l m) = map fst m ++ added
      /\ incl added (map fst l).
Proof.
  induction l as [|[k v] l IH]; intros m.
  - exists []. cbn. rewrite app_nil_r. split; [reflexivity|intros x []].
  - unfold record_all in *. cbn [fold_left fst snd].
    destruct (IH (PyDict.setitem key_eqb k v m)) as (added & Hmap & Hincl).
    rewrite keys_setitem in Hmap.
    exists ((if PyDict.contains key_eqb k m then [] else [k]) ++ added).
    split; [rewrite Hmap, app_assoc; reflexivity|].
    intros x Hx. apply in_app_or in Hx. destruct Hx as [Hx|Hx].
    + destruct (PyDict.contains key_eqb k m); [destruct Hx|].
      destruct Hx as [Hx|[]]. left. exact Hx.
    + right. apply Hincl. exact Hx.
Qed.

(** The search never deletes or reorders what memory holds: at exit the
    keys of the memory it started from are still there, in place, and
    the keys after them are keys of trials completed in this call. *)
Theorem memory_keys_only_grow :
  forall (E : Externals) (fs : FS) (memory : memo) (rng : nat) (trials : Z)
         (bs es : Z * Z) (la : float * float)
         (suggested : option (list key)),
    exists added : list key,
      map fst
        (out_memory
           (tune_with_memory E fs memory rng trials bs es la suggested))
      = map fst memory ++ added
      /\ incl added
           (map fst
              (completed
                 (out_trace
                    (tune_with_memory E fs memory rng trials bs es la
                       suggested)))).
Proof.
  intros E fs memory rng trials bs es la suggested.
  unfold tune_with_memory.
  destruct (plan_trials E memory rng trials bs es la suggested) as [p|e].
  - pose proof (PipelineProps.search_state E (grouped_ens (planned p)) memory)
      as Hst.
    destruct (search E (grouped_ens (planned p)) memory) as [st r].
    cbn [fst] in Hst. subst st. cbn [out_memory out_trace fst snd].
    apply keys_record_all.
  - exists []. cbn. rewrite app_nil_r. split; [reflexivity|intros x []].
Qed.

(* ----------------------------------------------------------------- *)
(** *** What the search returns *)

Section SortedElements.
Context {A : Type}.
Variable lt : A -> A -> bool.

Lemma insert_In (x y : A) (l : list A) :
  In x (PySort.insert lt y l) <-> x = y \/ In x l.
Proof.
  induction l as [|z l IH]; cbn.
  - intuition.
  - destruct (lt y z); cbn; [intuition|]. rewrite IH. intuition.
Qed.

Lemma sort_stable_In (x : A) (l : list A) :
  In x (PySort.sort_stable lt l) <-> In x l.
Proof.
  unfold PySort.sort_stable.
  assert (Hgen : forall acc,
             In x (fold_left (fun acc y => PySort.insert lt y acc) l acc)
             <-> In x l \/ In x acc).
  { induction l as [|y l IH]; intros acc; cbn [fold_left].
    - cbn. intuition.
    - rewrite IH, insert_In. cbn. intuition. }
  rewrite Hgen. cbn. intuition.
Qed.

Lemma sorted_reverse_In (x : A) (l : list A) :
  In x (PySort.sorted_reverse lt l) <-> In x l.
Proof.
  unfold PySort.sorted_reverse.
  rewrite <- in_rev, sort_stable_In, <- in_rev. reflexivity.
Qed.

End SortedElements.

Lemma best_params_In (memory : memo) (x : key * float) :
  best_params memory = Ok x -> In x memory.
Proof.
  unfold best_params.
  destruct (PySort.sorted_reverse
              (fun a b : key * float => key_ltb (fst a) (fst b)) memory)
    as [|y rest] eqn:Hs; [discriminate|].
  intros Hx. inversion Hx; subst y.
  apply (sorted_reverse_In
           (fun a b : key * float => key_ltb (fst a) (fst b)) x memory).
  rewrite Hs. left. reflexivity.
Qed.

(** What a call that returns hands back is a dict of two entries:
    ['beam_size'] bound to a whole key of the memory and ['ensemble']
    bound to the score recorded for that key; there is no ['lp_alpha']
    entry. *)
Theorem returned_dict_pairs_key_and_score :
  forall (E : Externals) (fs : FS) (rng : nat) (trials : Z)
         (strategy : string) (bs es : Z * Z) (la : float * float)
         (suggested : option (list key)) (v : list (string * pyval)),
    out_result
      (tune_decoder_params E fs rng trials strategy bs es la suggested)
    = Ok v ->
    exists (k : key) (s : float),
      v = [("beam_size"%string, VKey k); ("ensemble"%string, VScore s)]
      /\ In (k, s)
           (out_memory
              (tune_decoder_params E fs rng trials strategy bs es la
                 suggested)).
Proof.
  intros E fs rng trials strategy bs es la suggested v.
  unfold tune_decoder_params.
  destruct (String.eqb strategy "random"); cbn [negb]; [|discriminate].
  destruct (tune_src_exists fs); cbn [negb]; [|discriminate].
  destruct (tune_ref_exists fs); cbn [negb]; [|discriminate].
  destruct (load_memory E fs) as [memory|e]; [|discriminate].
  unfold tune_with_memory.
  destruct (plan_trials E memory rng trials bs es la suggested) as [p|e];
    [|discriminate].
  unfold search.
  destruct (run_groups E (grouped_ens (planned p)) (memory, []))
    as [st [u|e]]; cbn [out_result out_memory fst snd]; [|discriminate].
  destruct (best_params (fst st)) as [[k s]|e] eqn:Hbest; [|discriminate].
  cbn. intros Hv. inversion Hv; subst v. exists k, s.
  split; [reflexivity|apply best_params_In; exact Hbest].
Qed.

Lemma returned_dict_pairs_key_and_score_witness :
  exists (k : key) (s : float),
    [("beam_size"%string, VKey Fixture.key2);
     ("ensemble"%string, VScore 10%float)]
    = [("beam_size"%string, VKey k); ("ensemble"%string, VScore s)]
    /\ In (k, s)
         (out_memory
            (tune_decoder_params Fixture.world Fixture.fresh 0 0 "random"
               (1, 15) (1, 10) (0%float, 1%float)
               (Some [Fixture.key1; Fixture.key2]))).
Proof.
  apply (returned_dict_pairs_key_and_score Fixture.world Fixture.fresh 0%nat
           0 "random"%string (1, 15) (1, 10) (0%float, 1%float)
           (Some [Fixture.key1; Fixture.key2])).
  vm_compute. reflexivity.
Defined.

(** A fresh call with no budget and no suggestion finds nothing to select
    from: it builds no decoder, raises [IndexError], and still writes
    the scores file, with an empty document. *)
Theorem empty_search_raises_index_error :
  forall (E : Externals) (fs : FS) (rng : nat) (trials : Z)
         (bs es : Z * Z) (la : float * float)
         (suggested : option (list key)),
    scores_json fs = None ->
    tune_src_exists fs = true ->
    tune_ref_exists fs = true ->
    trials <= 0 ->
    suggested = None \/ suggested = Some [] ->
    out_result
      (tune_decoder_params E fs rng trials "random" bs es la suggested)
    = Raise IndexError
    /\ out_trace
         (tune_decoder_params E fs rng trials "random" bs es la suggested)
       = []
    /\ scores_json
         (out_fs
            (tune_decoder_params E fs rng trials "random" bs es la suggested))
       = Some (json_dumps E []).
Proof.
  intros E fs rng trials bs es la suggested Hnone Hsrc Href Htrials Hsug.
  unfold tune_decoder_params, load_memory.
  rewrite Hsrc, Href, Hnone. cbn [String.eqb negb].
  change (String.eqb "random" "random") with true. cbn [negb].
  unfold tune_with_memory, plan_trials.
  assert (Hnew : suggested_new E [] suggested = [])
    by (destruct Hsug as [H|H]; subst suggested; reflexivity).
  rewrite Hnew. cbn [List.length Z.of_nat].
  destruct (Z.ltb_spec 0 (trials - 0)) as [Hlt|_]; [lia|].
  cbn. repeat split.
Qed.

Lemma empty_search_raises_index_error_witness :
  (scores_json Fixture.fresh = None /\ 0 <= 0)
  /\ out_result
       (tune_decoder_params Fixture.world Fixture.fresh 0 0 "random"
          (1, 15) (1, 10) (0%float, 1%float) None)
     = Raise IndexError.
Proof.
  split; [split; [reflexivity|lia]|].
  apply (empty_search_raises_index_error Fixture.world Fixture.fresh 0%nat 0
           (1, 15) (1, 10) (0%float, 1%float) None);
    first [reflexivity|lia|left; reflexivity].
Defined.

End PipelineMore.

(* ================================================================= *)
(** ** Properties of decoding and scoring a file *)

Module EvaluateProps.
Import PyPath Evaluate.

(* ----------------------------------------------------------------- *)
(** *** Strings and paths *)

Lemma length_append (a b : string) :
  String.length (a ++ b) = (String.length a + String.length b)%nat.
Proof. induction a as [|c a IH]; cbn; [reflexivity|rewrite IH; reflexivity]. Qed.

Lemma append_not_self (a b : string) : b <> ""%string -> (a ++ b)%string <> a.
Proof.
  intros Hb Heq. apply (f_equal String.length) in Heq.
  rewrite length_append in Heq. destruct b; [contradiction|]. cbn in Heq. lia.
Qed.

Lemma append_inj (a b c : string) : (a ++ b = a ++ c)%string -> b = c.
Proof.
  induction a as [|x a IH]; cbn; intros H; [exact H|].
  inversion H. auto.
Qed.

Lemma substring_take (a b : string) :
  substring 0 (String.length a) (a ++ b) = a.
Proof. induction a as [|c a IH]; cbn; [destruct b|rewrite IH]; reflexivity. Qed.

Lemma substring_skip (a b : string) :
  substring (String.length a) (String.length b) (a ++ b) = b.
Proof.
  induction a as [|c a IH]; cbn; [|exact IH].
  induction b as [|c b IH]; cbn; [|rewrite IH]; reflexivity.
Qed.

Lemma rfind_detok (a : string) :
  rfind "."%char (a ++ ".detok") = Some (String.length a).
Proof.
  induction a as [|c a IH]; [reflexivity|].
  cbn [append rfind String.length]. rewrite IH. reflexivity.
Qed.

Lemma suffix_detok (dir n : string) :
  n <> ""%string -> suffix (MkPath dir (n ++ ".detok")) = ".detok"%string.
Proof.
  intros Hn. unfold suffix. cbn [name].
  rewrite rfind_detok, length_append.
  change (String.length ".detok") with 6%nat.
  assert (Hlen : (0 < String.length n)%nat)
    by (destruct n; [contradiction|cbn; lia]).
  destruct (Nat.ltb_spec 0 (String.length n)) as [_|H]; [|lia].
  destruct (Nat.ltb_spec (String.length n) (String.length n + 6 - 1))
    as [_|H]; [|lia].
  cbn [andb].
  replace (String.length n + 6 - String.length n)%nat
    with (String.length ".detok") by (cbn; lia).
  apply substring_skip.
Qed.

Lemma detok_path_named (hyp : Path) :
  name hyp <> ""%string -> detok_path hyp = Ok (detok_of hyp).
Proof.
  intros Hn. unfold detok_path, with_name.
  destruct (String.eqb_spec (name hyp) ""); [contradiction|reflexivity].
Qed.

Lemma detok_path_unnamed (hyp : Path) :
  name hyp = ""%string -> detok_path hyp = Raise ValueError.
Proof. intros Hn. unfold detok_path, with_name. rewrite Hn. reflexivity. Qed.

Lemma bleu_path_named (hyp : Path) (lowercase : bool) :
  name hyp <> ""%string ->
  bleu_path (detok_of hyp) lowercase = Ok (bleu_of hyp lowercase).
Proof.
  intros Hn. unfold bleu_path, with_suffix, detok_of, bleu_of.
  cbn [name parent].
  assert (Hvalid :
            negb (String.eqb (if lowercase then ".lc.bleu" else ".oc.bleu") "")
            && (negb (prefix "." (if lowercase then ".lc.bleu" else ".oc.bleu"))
                || String.eqb (if lowercase then ".lc.bleu" else ".oc.bleu")
                              ".") = false)
    by (destruct lowercase; reflexivity).
  rewrite Hvalid.
  destruct (String.eqb_spec (name hyp ++ ".detok") "") as [Habs|_].
  { destruct (name hyp); discriminate Habs. }
  rewrite (suffix_detok _ _ Hn), length_append.
  replace (String.length (name hyp) + String.length ".detok"
           - String.length ".detok")%nat
    with (String.length (name hyp)) by lia.
  rewrite substring_take. reflexivity.
Qed.

Lemma path_eqb_eq (p q : Path) : path_eqb p q = true <-> p = q.
Proof.
  unfold path_eqb. rewrite andb_true_iff, !String.eqb_eq.
  destruct p, q; cbn. split.
  - intros [H1 H2]. subst. reflexivity.
  - intros H. inversion H. auto.
Qed.

Lemma path_eqb_refl (p : Path) : path_eqb p p = true.
Proof. apply path_eqb_eq. reflexivity. Qed.

Lemma path_eqb_sym (p q : Path) : path_eqb p q = path_eqb q p.
Proof.
  unfold path_eqb.
  rewrite (String.eqb_sym (parent p)), (String.eqb_sym (name p)). reflexivity.
Qed.

Lemma path_eqb_neq (p q : Path) : p <> q -> path_eqb p q = false.
Proof.
  intros Hne. destruct (path_eqb p q) eqn:E; [|reflexivity].
  apply path_eqb_eq in E. contradiction.
Qed.

Lemma hyp_not_detok (hyp : Path) : path_eqb hyp (detok_of hyp) = false.
Proof.
  apply path_eqb_neq. intros H. apply (f_equal name) in H. cbn in H.
  symmetry in H. revert H. apply append_not_self. discriminate.
Qed.

Lemma hyp_not_bleu (hyp : Path) (lowercase : bool) :
  path_eqb hyp (bleu_of hyp lowercase) = false.
Proof.
  apply path_eqb_neq. intros H. apply (f_equal name) in H. cbn in H.
  symmetry in H. revert H. apply append_not_self.
  destruct lowercase; discriminate.
Qed.

Lemma detok_not_bleu (hyp : Path) (lowercase : bool) :
  path_eqb (detok_of hyp) (bleu_of hyp lowercase) = false.
Proof.
  apply path_eqb_neq. intros H. apply (f_equal name) in H. cbn in H.
  apply append_inj in H. destruct lowercase; discriminate H.
Qed.

(* ----------------------------------------------------------------- *)
(** *** Scoring a hypothesis file *)

Section Scored.
Variable T : Tools.

(** [evaluate_file] on a hypothesis that is there, with the two names
    worked out. *)
Lemma evaluate_file_unfold (fs : FS) (hyp ref : Path) (lowercase : bool)
    (h : string) :
  name hyp <> ""%string ->
  fs hyp = Some h ->
  evaluate_file T fs hyp ref lowercase
  = let fs1 := write fs (detok_of hyp) (detok_text T h) in
    match
      (ref_lines <- read fs1 ref ;;
       bleu <- corpus_bleu T (detok_text T h) ref_lines lowercase ;;
       line <- bleu_str T bleu ;;
       Ok (bleu, line))%py
    with
    | Raise e => (fs1, Raise e)
    | Ok (bleu, line) =>
        (write fs1 (bleu_of hyp lowercase) line, Ok (score bleu))
    end.
Proof.
  intros Hn Hh. unfold evaluate_file.
  rewrite (detok_path_named _ Hn). unfold detokenize.
  unfold read at 1. rewrite Hh.
  unfold read at 1. unfold write at 1. rewrite path_eqb_refl.
  cbv zeta. cbn [bind].
  destruct (read _ ref) as [r|e]; cbn [bind]; [|reflexivity].
  destruct (corpus_bleu T _ r lowercase) as [b|e]; cbn [bind]; [|reflexivity].
  destruct (bleu_str T b) as [l|e]; cbn [bind]; [|reflexivity].
  rewrite (bleu_path_named _ _ Hn). reflexivity.
Qed.

Lemma evaluate_file_unnamed (fs : FS) (hyp ref : Path) (lowercase : bool) :
  name hyp = ""%string ->
  evaluate_file T fs hyp ref lowercase = (fs, Raise ValueError).
Proof.
  intros Hn. unfold evaluate_file. rewrite (detok_path_unnamed _ Hn).
  reflexivity.
Qed.

Lemma evaluate_file_missing (fs : FS) (hyp ref : Path) (lowercase : bool) :
  name hyp <> ""%string ->
  fs hyp = None ->
  evaluate_file T fs hyp ref lowercase
  = (fs, Raise (ExternalError "FileNotFoundError")).
Proof.
  intros Hn Hh. unfold evaluate_file.
  rewrite (detok_path_named _ Hn). unfold detokenize, read. rewrite Hh.
  reflexivity.
Qed.

(** Whatever happens, [evaluate_file] leaves every file but its two
    outputs as it was. *)
Lemma evaluate_file_frame (fs : FS) (hyp ref : Path) (lowercase : bool)
    (p : Path) :
  path_eqb p (detok_of hyp) = false ->
  path_eqb p (bleu_of hyp lowercase) = false ->
  fst (evaluate_file T fs hyp ref lowercase) p = fs p.
Proof.
  intros Hd Hb.
  destruct (String.eqb_spec (name hyp) "") as [Hn|Hn].
  { rewrite (evaluate_file_unnamed _ _ _ _ Hn). reflexivity. }
  destruct (fs hyp) as [h|] eqn:Hh.
  - rewrite (evaluate_file_unfold _ _ _ _ _ Hn Hh). cbv zeta.
    destruct (_ <- _ ;; _)%py as [[b l]|e]; cbn [fst]; unfold write;
      rewrite ?Hb, ?Hd; reflexivity.
  - rewrite (evaluate_file_missing _ _ _ _ Hn Hh). reflexivity.
Qed.

(** A second scoring of the same hypothesis, on the files the first one
    left, returns the same score and leaves the same files, as long as the
    reference is not the score file. *)
Lemma evaluate_file_again (fs fs' : FS) (hyp ref : Path) (lowercase : bool)
    (sc : float) :
  evaluate_file T fs hyp ref lowercase = (fs', Ok sc) ->
  path_eqb ref (bleu_of hyp lowercase) = false ->
  exists fs'',
    evaluate_file T fs' hyp ref lowercase = (fs'', Ok sc)
    /\ forall p, fs'' p = fs' p.
Proof.
  intros H Href.
  destruct (String.eqb_spec (name hyp) "") as [Hn|Hn].
  { rewrite (evaluate_file_unnamed _ _ _ _ Hn) in H. discriminate H. }
  destruct (fs hyp) as [h|] eqn:Hh.
  2:{ rewrite (evaluate_file_missing _ _ _ _ Hn Hh) in H. discriminate H. }
  rewrite (evaluate_file_unfold _ _ _ _ _ Hn Hh) in H. cbv zeta in H.
  destruct (read _ ref) as [r|e] eqn:Hr; cbn [bind] in H; [|discriminate H].
  destruct (corpus_bleu T _ r lowercase) as [b|e] eqn:Hb; cbn [bind] in H;
    [|discriminate H].
  destruct (bleu_str T b) as [l|e] eqn:Hl; cbn [bind] in H; [|discriminate H].
  injection H as Hfs Hsc. subst fs' sc.
  assert (Hh' : write (write fs (detok_of hyp) (detok_text T h))
                  (bleu_of hyp lowercase) l hyp = Some h).
  { unfold write. rewrite hyp_not_bleu, hyp_not_detok. exact Hh. }
  rewrite (evaluate_file_unfold _ _ _ _ _ Hn Hh'). cbv zeta.
  assert (Hr' : read (write (write (write fs (detok_of hyp) (detok_text T h))
                               (bleu_of hyp lowercase) l)
                        (detok_of hyp) (detok_text T h)) ref = Ok r).
  { rewrite <- Hr. unfold read, write. rewrite Href.
    destruct (path_eqb ref (detok_of hyp)); reflexivity. }
  rewrite Hr'. cbn [bind]. rewrite Hb. cbn [bind]. rewrite Hl. cbn [bind].
  eexists. split; [reflexivity|].
  intros p. unfold write.
  destruct (path_eqb p (bleu_of hyp lowercase));
    destruct (path_eqb p (detok_of hyp)); reflexivity.
Qed.

(** When [evaluate_file] returns a score, the hypothesis was there under
    a name H; the files are the old ones with two more: [H.detok] holding
    the detokenized text, and [H.lc.bleu] or [H.oc.bleu] (the [.detok]
    replaced, not kept) holding the line for the score that the scorer
    computed from the detokenized text and the reference; the reference
    length is not zero, and the score returned is the scorer's. *)
Theorem evaluate_file_writes_detok_and_score
    (fs fs' : FS) (hyp ref : Path) (lowercase : bool) (sc : float) :
  evaluate_file T fs hyp ref lowercase = (fs', Ok sc) ->
  exists h r b,
    name hyp <> ""%string
    /\ fs hyp = Some h
    /\ write fs (detok_of hyp) (detok_text T h) ref = Some r
    /\ corpus_bleu T (detok_text T h) r lowercase = Ok b
    /\ ref_len b <> 0
    /\ sc = score b
    /\ fs' = write (write fs (detok_of hyp) (detok_text T h))
                   (bleu_of hyp lowercase) (bleu_line T b).
Proof.
  intros H.
  destruct (String.eqb_spec (name hyp) "") as [Hn|Hn].
  { rewrite (evaluate_file_unnamed _ _ _ _ Hn) in H. discriminate H. }
  destruct (fs hyp) as [h|] eqn:Hh.
  2:{ rewrite (evaluate_file_missing _ _ _ _ Hn Hh) in H. discriminate H. }
  rewrite (evaluate_file_unfold _ _ _ _ _ Hn Hh) in H. cbv zeta in H.
  unfold read in H.
  destruct (write fs (detok_of hyp) (detok_text T h) ref) as [r|] eqn:Hr;
    cbn [bind] in H; [|discriminate H].
  destruct (corpus_bleu T _ r lowercase) as [b|e] eqn:Hb; cbn [bind] in H;
    [|discriminate H].
  unfold bleu_str in H.
  destruct (Z.eqb_spec (ref_len b) 0) as [Hz|Hz]; cbn [bind] in H;
    [discriminate H|].
  injection H as Hfs Hsc.
  exists h, r, b. repeat split; auto.
Qed.

(** A reference of length zero: the detokenized file is written, the
    line for the score file divides by the reference length, and the call
    raises [ZeroDivisionError] with no score file written. *)
Theorem evaluate_file_zero_reference_length
    (fs : FS) (hyp ref : Path) (lowercase : bool) (h r : string) (b : BLEU) :
  name hyp <> ""%string ->
  fs hyp = Some h ->
  write fs (detok_of hyp) (detok_text T h) ref = Some r ->
  corpus_bleu T (detok_text T h) r lowercase = Ok b ->
  ref_len b = 0 ->
  evaluate_file T fs hyp ref lowercase
  = (write fs (detok_of hyp) (detok_text T h), Raise ZeroDivisionError).
Proof.
  intros Hn Hh Hr Hb Hz.
  rewrite (evaluate_file_unfold _ _ _ _ _ Hn Hh). cbv zeta.
  unfold read. rewrite Hr. cbn [bind]. rewrite Hb. cbn [bind].
  unfold bleu_str. rewrite Hz. reflexivity.
Qed.

End Scored.

Lemma evaluate_file_writes_detok_and_score_witness :
  exists h r b,
    start_files ref_file = Some h
    /\ r = two_lines
    /\ score b = 25%float.
Proof.
  destruct (evaluate_file_writes_detok_and_score tools start_files
              (fst (evaluate_file tools start_files ref_file src_file true))
              ref_file src_file true 25%float eq_refl)
    as [h [r [b [_ [Hh [Hr [_ [_ [Hsc _]]]]]]]]].
  exists h, r, b. repeat split.
  - exact Hh.
  - vm_compute in Hr. injection Hr as Hr. symmetry. exact Hr.
  - symmetry. exact Hsc.
Defined.

Lemma evaluate_file_zero_reference_length_witness :
  snd (evaluate_file tools start_files src_file empty_ref false)
  = Raise ZeroDivisionError
  /\ fst (evaluate_file tools start_files src_file empty_ref false)
       (bleu_of src_file false) = None.
Proof.
  rewrite (evaluate_file_zero_reference_length tools start_files src_file
             empty_ref false two_lines ""
             {| score := 25%float; sys_len := 2; ref_len := 0 |});
    first [reflexivity | discriminate | idtac].
  split; reflexivity.
Defined.

(* ----------------------------------------------------------------- *)
(** *** Decoding, then scoring *)

Section Decoded.
Variable T : Tools.

Lemma output_complete_true (fs : FS) (src_file out_file : Path)
    (t s : string) :
  fs out_file = Some t ->
  t <> ""%string ->
  fs src_file = Some s ->
  line_count T t = line_count T s ->
  output_complete T fs src_file out_file = Ok true.
Proof.
  intros Ht Hne Hs Hlc. unfold output_complete, read. rewrite Ht.
  destruct (String.eqb_spec t "") as [Habs|_]; [contradiction|].
  rewrite Hs. cbn [bind]. rewrite Hlc, Z.eqb_refl. reflexivity.
Qed.

Lemma output_complete_false (fs : FS) (src_file out_file : Path) (s : string) :
  fs src_file = Some s ->
  fs out_file = None
  \/ fs out_file = Some ""%string
  \/ (exists t, fs out_file = Some t /\ line_count T t <> line_count T s) ->
  output_complete T fs src_file out_file = Ok false.
Proof.
  intros Hs [Ht|[Ht|[t [Ht Hlc]]]]; unfold output_complete, read; rewrite Ht;
    try reflexivity.
  destruct (String.eqb t ""); [reflexivity|].
  rewrite Hs. cbn [bind].
  destruct (Z.eqb_spec (line_count T t) (line_count T s)); [contradiction|].
  reflexivity.
Qed.

(** A call that returns a score ended in a scoring of the output file
    that left the files of the result. *)
Lemma scored_by_evaluate_file (d : disk) (decoder : Pipeline.Decoder)
    (src_file out_file ref_file : Path) (lowercase : bool)
    (batch_size beam_size : Z) (lp_alpha : float) (sc : float) :
  snd (decode_eval_file T d decoder src_file out_file ref_file lowercase
         batch_size beam_size lp_alpha) = Ok sc ->
  exists fs,
    evaluate_file T fs out_file ref_file lowercase
    = (files (fst (decode_eval_file T d decoder src_file out_file ref_file
                     lowercase batch_size beam_size lp_alpha)), Ok sc).
Proof.
  unfold decode_eval_file.
  destruct (output_complete T (files d) src_file out_file) as [[|]|e];
    [| |discriminate].
  - destruct (evaluate_file T (files d) out_file ref_file lowercase)
      as [fs r] eqn:E.
    cbn [fst snd files]. intros ->. exists (files d). exact E.
  - destruct (read (files d) src_file) as [src_text|e]; [|discriminate].
    destruct (decode_file T decoder src_text batch_size beam_size lp_alpha)
      as [out_text [e|]]; [discriminate|].
    destruct (evaluate_file T (write (files d) out_file out_text) out_file
                ref_file lowercase) as [fs r] eqn:E.
    cbn [fst snd files]. intros ->. eexists. exact E.
Qed.

(** Whatever the call does, decoding, scoring or raising: every file
    other than the output, its [.detok] and its score file is as it
    was. *)
Theorem decode_eval_file_touches_three_files
    (d : disk) (decoder : Pipeline.Decoder)
    (src_file out_file ref_file : Path) (lowercase : bool)
    (batch_size beam_size : Z) (lp_alpha : float) (p : Path) :
  path_eqb p out_file = false ->
  path_eqb p (detok_of out_file) = false ->
  path_eqb p (bleu_of out_file lowercase) = false ->
  files (fst (decode_eval_file T d decoder src_file out_file ref_file
                lowercase batch_size beam_size lp_alpha)) p
  = files d p.
Proof.
  intros Ho Hd Hb. unfold decode_eval_file.
  destruct (output_complete T (files d) src_file out_file) as [[|]|e];
    [| |reflexivity].
  - pose proof (evaluate_file_frame T (files d) out_file ref_file lowercase
                  p Hd Hb) as Hfr.
    destruct (evaluate_file T (files d) out_file ref_file lowercase)
      as [fs r]. exact Hfr.
  - destruct (read (files d) src_file) as [src_text|e]; [|reflexivity].
    destruct (decode_file T decoder src_text batch_size beam_size lp_alpha)
      as [out_text [e|]].
    + cbn [fst files]. unfold write. rewrite Ho. reflexivity.
    + pose proof (evaluate_file_frame T (write (files d) out_file out_text)
                    out_file ref_file lowercase p Hd Hb) as Hfr.
      destruct (evaluate_file T (write (files d) out_file out_text) out_file
                  ref_file lowercase) as [fs r].
      cbn [fst files] in *. rewrite Hfr. unfold write. rewrite Ho.
      reflexivity.
Qed.

(** An output that is there, not empty and as long as the source is
    taken as it is: the decoder is not run, the output keeps its text,
    and the result is that of scoring it. *)
Theorem complete_output_is_not_decoded_again
    (d : disk) (decoder : Pipeline.Decoder)
    (src_file out_file ref_file : Path) (lowercase : bool)
    (batch_size beam_size : Z) (lp_alpha : float) (t s : string) :
  files d out_file = Some t ->
  t <> ""%string ->
  files d src_file = Some s ->
  line_count T t = line_count T s ->
  decoded (fst (decode_eval_file T d decoder src_file out_file ref_file
                  lowercase batch_size beam_size lp_alpha))
  = decoded d
  /\ files (fst (decode_eval_file T d decoder src_file out_file ref_file
                   lowercase batch_size beam_size lp_alpha)) out_file
     = Some t
  /\ snd (decode_eval_file T d decoder src_file out_file ref_file
            lowercase batch_size beam_size lp_alpha)
     = snd (evaluate_file T (files d) out_file ref_file lowercase).
Proof.
  intros Ht Hne Hs Hlc. unfold decode_eval_file.
  rewrite (output_complete_true _ _ _ _ _ Ht Hne Hs Hlc).
  pose proof (evaluate_file_frame T (files d) out_file ref_file lowercase
                out_file (hyp_not_detok _) (hyp_not_bleu _ _)) as Hfr.
  destruct (evaluate_file T (files d) out_file ref_file lowercase) as [fs r].
  cbn [fst snd files decoded] in *. rewrite Hfr. auto.
Qed.

(** An output that is missing, empty, or not as long as the source is
    decoded again, once, from the text of the source; the output file
    then holds what the decoder wrote.  If the decoder raised, the call
    raises the same, nothing is scored, and the partly written output is
    the only file that changed. *)
Theorem incomplete_output_is_decoded
    (d : disk) (decoder : Pipeline.Decoder)
    (src_file out_file ref_file : Path) (lowercase : bool)
    (batch_size beam_size : Z) (lp_alpha : float) (s : string) :
  files d src_file = Some s ->
  files d out_file = None
  \/ files d out_file = Some ""%string
  \/ (exists t, files d out_file = Some t
                /\ line_count T t <> line_count T s) ->
  decoded (fst (decode_eval_file T d decoder src_file out_file ref_file
                  lowercase batch_size beam_size lp_alpha))
  = decoded d ++ [out_file]
  /\ files (fst (decode_eval_file T d decoder src_file out_file ref_file
                   lowercase batch_size beam_size lp_alpha)) out_file
     = Some (fst (decode_file T decoder s batch_size beam_size lp_alpha))
  /\ forall e,
       snd (decode_file T decoder s batch_size beam_size lp_alpha) = Some e ->
       decode_eval_file T d decoder src_file out_file ref_file
         lowercase batch_size beam_size lp_alpha
       = ({| files :=
               write (files d) out_file
                 (fst (decode_file T decoder s batch_size beam_size
                         lp_alpha));
             decoded := decoded d ++ [out_file] |},
          Raise e).
Proof.
  intros Hs Hout. unfold decode_eval_file.
  rewrite (output_complete_false _ _ _ _ Hs Hout).
  unfold read. rewrite Hs.
  destruct (decode_file T decoder s batch_size beam_size lp_alpha)
    as [out_text [e|]]; cbn [fst snd].
  - cbn [files decoded]. unfold write at 1. rewrite path_eqb_refl.
    repeat split. intros e' He'. injection He' as ->. reflexivity.
  - pose proof (evaluate_file_frame T (write (files d) out_file out_text)
                  out_file ref_file lowercase out_file
                  (hyp_not_detok _) (hyp_not_bleu _ _)) as Hfr.
    destruct (evaluate_file T (write (files d) out_file out_text) out_file
                ref_file lowercase) as [fs r].
    cbn [fst snd files decoded] in *. rewrite Hfr.
    unfold write. rewrite path_eqb_refl.
    repeat split. intros e He. discriminate He.
Qed.

(** Calling again after a call that returned a score and left a complete
    output: the decoder is not run again, the same score is returned, and
    every file keeps its text (the two files of the scoring are written
    again with what they held), as long as the reference is not the
    score file. *)
Theorem second_call_repeats_the_score
    (d : disk) (decoder : Pipeline.Decoder)
    (src_file out_file ref_file : Path) (lowercase : bool)
    (batch_size beam_size : Z) (lp_alpha : float) (sc : float) :
  snd (decode_eval_file T d decoder src_file out_file ref_file lowercase
         batch_size beam_size lp_alpha) = Ok sc ->
  output_complete T
    (files (fst (decode_eval_file T d decoder src_file out_file ref_file
                   lowercase batch_size beam_size lp_alpha)))
    src_file out_file = Ok true ->
  path_eqb ref_file (bleu_of out_file lowercase) = false ->
  snd (decode_eval_file T
         (fst (decode_eval_file T d decoder src_file out_file ref_file
                 lowercase batch_size beam_size lp_alpha))
         decoder src_file out_file ref_file lowercase
         batch_size beam_size lp_alpha) = Ok sc
  /\ decoded
       (fst (decode_eval_file T
               (fst (decode_eval_file T d decoder src_file out_file ref_file
                       lowercase batch_size beam_size lp_alpha))
               decoder src_file out_file ref_file lowercase
               batch_size beam_size lp_alpha))
     = decoded (fst (decode_eval_file T d decoder src_file out_file ref_file
                       lowercase batch_size beam_size lp_alpha))
  /\ forall p,
       files
         (fst (decode_eval_file T
                 (fst (decode_eval_file T d decoder src_file out_file
                         ref_file lowercase batch_size beam_size lp_alpha))
                 decoder src_file out_file ref_file lowercase
                 batch_size beam_size lp_alpha)) p
       = files (fst (decode_eval_file T d decoder src_file out_file ref_file
                       lowercase batch_size beam_size lp_alpha)) p.
Proof.
  intros Hok Hcomplete Href.
  destruct (scored_by_evaluate_file _ _ _ _ _ _ _ _ _ _ Hok) as [fs0 E].
  destruct (evaluate_file_again T _ _ _ _ _ _ E Href) as [fs2 [E2 Hsame]].
  remember (fst (decode_eval_file T d decoder src_file out_file ref_file
                   lowercase batch_size beam_size lp_alpha)) as d1.
  unfold decode_eval_file. rewrite Hcomplete, E2.
  cbn [fst snd files decoded]. auto.
Qed.

End Decoded.

Lemma decode_eval_file_touches_three_files_witness :
  files (fst (decode_eval_file tools start a_decoder src_file out_file
                ref_file true 1 4 0.5%float)) ref_file
  = Some two_lines.
Proof.
  rewrite (decode_eval_file_touches_three_files tools start a_decoder
             src_file out_file ref_file true 1 4 0.5%float ref_file);
    reflexivity.
Defined.

(** The files after one call on [start]: the output is there. *)
Lemma complete_output_is_not_decoded_again_witness :
  decoded
    (fst (decode_eval_file tools
            (fst (decode_eval_file tools start a_decoder src_file out_file
                    ref_file true 1 4 0.5%float))
            a_decoder src_file out_file ref_file true 1 4 0.5%float))
  = [out_file].
Proof.
  apply (complete_output_is_not_decoded_again tools
           (fst (decode_eval_file tools start a_decoder src_file out_file
                   ref_file true 1 4 0.5%float))
           a_decoder src_file out_file ref_file true 1 4 0.5%float
           (echo_lines two_lines) two_lines);
    first [reflexivity | discriminate].
Defined.

Lemma incomplete_output_is_decoded_witness :
  decoded (fst (decode_eval_file tools start a_decoder src_file out_file
                  ref_file true 1 4 0.5%float))
  = [out_file]
  /\ files (fst (decode_eval_file tools start a_decoder src_file out_file
                   ref_file true 1 4 0.5%float)) out_file
     = Some (echo_lines two_lines).
Proof.
  destruct (incomplete_output_is_decoded tools start a_decoder src_file
              out_file ref_file true 1 4 0.5%float two_lines eq_refl
              (or_introl eq_refl)) as [Hd [Hf _]].
  split; [exact Hd|exact Hf].
Defined.

Lemma second_call_repeats_the_score_witness :
  snd (decode_eval_file tools
         (fst (decode_eval_file tools start a_decoder src_file out_file
                 ref_file true 1 4 0.5%float))
         a_decoder src_file out_file ref_file true 1 4 0.5%float)
  = Ok 25%float.
Proof.
  apply (second_call_repeats_the_score tools start a_decoder src_file
           out_file ref_file true 1 4 0.5%float 25%float);
    reflexivity.
Defined.

(* ----------------------------------------------------------------- *)
(** *** The checks before a run *)

Section Checked.
Variable T : Tools.

Lemma check_case_ok (fs : FS) (c : case) :
  check_case T fs c = Ok tt <-> case_passes T fs c.
Proof.
  unfold check_case, case_passes. split.
  - destruct (fs (fst (snd c))) as [s|]; [|discriminate].
    destruct (fs (snd (snd c))) as [r|]; [|discriminate].
    destruct (Z.eqb_spec (line_count T s) (line_count T r)); [|discriminate].
    intros _. exists s, r. auto.
  - intros [s [r [Hs [Hr Hlc]]]]. rewrite Hs, Hr, Hlc, Z.eqb_refl.
    reflexivity.
Qed.

Lemma check_cases_ok (fs : FS) (suit : list case) :
  check_cases T fs suit = Ok tt <-> Forall (case_passes T fs) suit.
Proof.
  induction suit as [|c rest IH]; cbn [check_cases].
  - split; [constructor|reflexivity].
  - split.
    + destruct (check_case T fs c) as [[]|e] eqn:E; cbn [bind];
        [|discriminate].
      intros H. constructor; [apply check_case_ok; exact E|apply IH; exact H].
    + intros H. inversion H as [|? ? Hc Hrest]; subst.
      apply check_case_ok in Hc. rewrite Hc. cbn [bind]. apply IH. exact Hrest.
Qed.

Lemma check_cases_raise (fs : FS) (suit : list case) (e : exn) :
  check_cases T fs suit = Raise e -> e = AssertionError.
Proof.
  induction suit as [|c rest IH]; cbn [check_cases]; [discriminate|].
  destruct (check_case T fs c) as [[]|e'] eqn:E; cbn [bind]; [exact IH|].
  intros H. injection H as <-.
  unfold check_case in E.
  destruct (fs (fst (snd c))); [|injection E as <-; reflexivity].
  destruct (fs (snd (snd c))); [|injection E as <-; reflexivity].
  destruct (_ =? _); [discriminate E|injection E as <-; reflexivity].
Qed.

(** [pre_checks] passes, and sets [self.script] to [sc], exactly when the
    work directory exists, [prep] and [trainer] are set, the tester has a
    suite whose every case has both files with as many lines, and [sc] is
    the script in its first place if it is there, else in its second
    place, which then has to be there. *)
Theorem pre_checks_passes_iff
    (fs : FS) (work_dir_exists : bool) (cfg : config)
    (script fallback sc : Path) :
  pre_checks T fs work_dir_exists cfg script fallback = Ok sc
  <-> (work_dir_exists = true
       /\ is_set (prep cfg) = true
       /\ is_set (trainer cfg) = true
       /\ (exists suit,
              tester cfg = Present (Present suit)
              /\ Forall (case_passes T fs) suit)
       /\ ((fs script <> None /\ sc = script)
           \/ (fs script = None /\ fs fallback <> None /\ sc = fallback))).
Proof.
  unfold pre_checks. split.
  - destruct work_dir_exists; cbn [negb]; [|discriminate].
    destruct (is_set (prep cfg)); cbn [negb]; [|discriminate].
    destruct (is_set (trainer cfg)); cbn [negb]; [|discriminate].
    destruct (tester cfg) as [| |[| |suit]]; try discriminate.
    destruct (check_cases T fs suit) as [[]|e] eqn:E; cbn [bind];
      [|discriminate].
    apply check_cases_ok in E.
    destruct (fs script) as [x|] eqn:Hs.
    + rewrite Hs. intros H. injection H as <-.
      repeat split; [exists suit; auto|left; split; congruence].
    + destruct (fs fallback) as [y|] eqn:Hf; [|discriminate].
      intros H. injection H as <-.
      repeat split; [exists suit; auto|right; repeat split; congruence].
  - intros [-> [-> [-> [[suit [-> Hall]] Hsc]]]]. cbn [negb].
    apply check_cases_ok in Hall. rewrite Hall. cbn [bind].
    destruct Hsc as [[Hs ->]|[Hs [Hf ->]]].
    + destruct (fs script) as [x|] eqn:E; [|contradiction].
      rewrite E. reflexivity.
    + rewrite Hs. destruct (fs fallback) as [y|]; [reflexivity|contradiction].
Qed.

(** When [pre_checks] fails on a configuration of the expected shape, it
    fails with [AssertionError], except for a tester section without the
    key ['suit'], which fails with [KeyError]; in that case the work
    directory, [prep] and [trainer] had passed. *)
Theorem pre_checks_failure_kind
    (fs : FS) (work_dir_exists : bool) (cfg : config)
    (script fallback : Path) (e : exn) :
  pre_checks T fs work_dir_exists cfg script fallback = Raise e ->
  e = AssertionError
  \/ (e = ExternalError "KeyError"
      /\ tester cfg = Present Absent
      /\ work_dir_exists = true
      /\ is_set (prep cfg) = true
      /\ is_set (trainer cfg) = true).
Proof.
  unfold pre_checks.
  destruct work_dir_exists; cbn [negb];
    [|intros H; injection H as <-; left; reflexivity].
  destruct (is_set (prep cfg)); cbn [negb];
    [|intros H; injection H as <-; left; reflexivity].
  destruct (is_set (trainer cfg)); cbn [negb];
    [|intros H; injection H as <-; left; reflexivity].
  destruct (tester cfg) as [| |[| |suit]];
    try (intros H; injection H as <-; left; reflexivity).
  - intros H; injection H as <-. right. auto.
  - destruct (check_cases T fs suit) as [[]|e'] eqn:E; cbn [bind].
    + destruct (fs match fs script with Some _ => script | None => fallback end);
        [discriminate|].
      intros H; injection H as <-. left; reflexivity.
    + intros H; injection H as <-. apply check_cases_raise in E. subst e'.
      left; reflexivity.
Qed.

End Checked.

Lemma pre_checks_failure_kind_witness :
  pre_checks tools start_files true
    {| prep := Present tt; trainer := Present tt; tester := Present Absent |}
    script_file other_script
  = Raise (ExternalError "KeyError")
  /\ (ExternalError "KeyError" = AssertionError
      \/ ExternalError "KeyError" = ExternalError "KeyError"
         /\ Present (@Absent (list case)) = Present Absent
         /\ true = true
         /\ true = true
         /\ true = true).
Proof.
  split; [reflexivity|].
  exact (pre_checks_failure_kind tools start_files true
           {| prep := Present tt; trainer := Present tt;
              tester := Present Absent |}
           script_file other_script (ExternalError "KeyError") eq_refl).
Defined.

End EvaluateProps.
